(** * Interactive region map widget (MapComponent)

    A shallow embedding of the map widget of the portfolio site: the
    location presets, the two style functions, the selection handler
    [handleLocationClick], the two pointer handlers bound to every boundary
    feature, the asynchronous [loadGeoJSON] task with its try/catch, the
    initialisation effect with its cleanup, the intersection observer and
    the render function.

    The mapping library is not part of the repository.  Its objects are
    modelled by what the widget can observe of them: a path layer is its
    feature plus the option keys the widget ever writes, an overlay is the
    ordered list of its layers plus the [selectedLayer] property the widget
    attaches to it, and a map instance is the sequence of calls issued on
    it. *)

From Stdlib Require Import ZArith QArith List String Bool Lia.
From stdpp Require Import base option list.

Open Scope string_scope.

(** ** The mapping library, as far as the widget uses it *)

Module Leaflet.

(** [LatLngExpression], always written as a two-element tuple here. *)
Definition LatLng : Type := (Q * Q)%type.

(** [L.PathOptions]: every key is optional.  Only the keys the widget
    writes are tracked. *)
Record PathOptions : Type := mkPathOptions {
  fillColor : option string;
  weight : option Q;
  opacity : option Q;
  color : option string;
  fillOpacity : option Q
}.

(** [Util.setOptions(obj, options)]: every key present in [style]
    overwrites the key of the same name, the other keys are kept. *)
Definition setOptions (style current : PathOptions) : PathOptions :=
  {| fillColor := from_option Some (fillColor current) (fillColor style);
     weight := from_option Some (weight current) (weight style);
     opacity := from_option Some (opacity current) (opacity style);
     color := from_option Some (color current) (color style);
     fillOpacity := from_option Some (fillOpacity current) (fillOpacity style) |}.

(** The option keys of a freshly created path, before any style is applied. *)
Definition pathDefaults : PathOptions :=
  {| fillColor := None;
     weight := Some 3%Q;
     opacity := Some 1.0%Q;
     color := Some "#3388ff";
     fillOpacity := Some 0.2%Q |}.

(** [IFeatureProperties] of the widget: both keys optional. *)
Record IFeatureProperties : Type := mkProps {
  adcode : option Z;
  name : option string
}.

(** A GeoJSON feature of polygon or multipolygon geometry; [properties]
    may be null. *)
Record Feature : Type := mkFeature {
  properties : option IFeatureProperties
}.

(** A rendered path layer with the feature retained on it. *)
Record Layer : Type := mkLayer {
  feature : Feature;
  options : PathOptions
}.

(** [Path.setStyle(style)]. *)
Definition Path_setStyle (style : PathOptions) (layer : Layer) : Layer :=
  {| feature := feature layer; options := setOptions style (options layer) |}.

(** [L.GeoJSON], extended by the widget with [selectedLayer]; a layer is
    referred to by its position in iteration order. *)
Record GeoJSON : Type := mkGeoJSON {
  layers : list Layer;
  selectedLayer : option nat
}.

(** [GeoJSON.setStyle(style)]: applies the style to every layer. *)
Definition GeoJSON_setStyle (style : PathOptions) (g : GeoJSON) : GeoJSON :=
  {| layers := Path_setStyle style <$> layers g;
     selectedLayer := selectedLayer g |}.

(** [L.geoJson(geoData, {style, onEachFeature})]: one layer per feature, in
    document order, each styled with [style]; [selectedLayer] is not yet
    defined on the new object. *)
Definition geoJson (geoData : list Feature) (style : PathOptions) : GeoJSON :=
  {| layers := (λ f, Path_setStyle style {| feature := f; options := pathDefaults |}) <$> geoData;
     selectedLayer := None |}.

(** What can be added to a map. *)
Inductive MapLayer : Type :=
| tileLayer (urlTemplate : string) (maxZoom : Z) (noWrap : bool)
| overlay (handle : nat).

(** The calls the widget issues on a map instance. *)
Inductive MapCall : Type :=
| setView (center : LatLng) (zoom : Z)
| addLayer (l : MapLayer)
| flyTo (target : LatLng) (zoom : Z) (duration : Q)
| remove.

Record MapOptions : Type := mkMapOptions {
  zoomControl : bool;
  scrollWheelZoom : bool;
  doubleClickZoom : bool;
  boxZoom : bool;
  attributionControl : bool
}.

(** A map instance: its construction options and the calls issued on it,
    oldest first. *)
Record Map : Type := mkMap {
  mapOptions : MapOptions;
  calls : list MapCall
}.

Definition call (c : MapCall) (m : Map) : Map :=
  {| mapOptions := mapOptions m; calls := calls m ++ [c] |}.

Definition is_remove (c : MapCall) : bool :=
  match c with remove => true | _ => false end.

(** A map is torn down once [remove] has been called on it. *)
Definition removed (m : Map) : bool := existsb is_remove (calls m).

Definition is_flyTo (c : MapCall) : bool :=
  match c with flyTo _ _ _ => true | _ => false end.

End Leaflet.

Export Leaflet.

(** ** The widget *)

Module MapComponent.

(** *** Types and constants *)

Inductive LocationId : Type := global | china | zunyi | yangpu.

#[export] Instance LocationId_eq_dec : EqDecision LocationId.
Proof. solve_decision. Defined.

Record ILocation : Type := mkLocation {
  id : LocationId;
  label : string;
  coords : LatLng;
  zoom : Z;
  areaCode : option Z
}.

Definition defaultStyle : PathOptions :=
  {| fillColor := Some "transparent";
     weight := Some 1%Q;
     opacity := Some 1%Q;
     color := Some "#333";
     fillOpacity := Some 0%Q |}.

Definition highlightStyle : PathOptions :=
  {| fillColor := Some "#ff0000";
     weight := Some 2%Q;
     opacity := Some 1%Q;
     color := Some "#000";
     fillOpacity := Some 0.7%Q |}.

(** The style object passed by the [mouseover] handler. *)
Definition hoverStyle : PathOptions :=
  {| fillColor := None;
     weight := Some 2%Q;
     opacity := None;
     color := Some "#666";
     fillOpacity := None |}.

Definition locations : list ILocation :=
  [ {| id := global; label := "全球"; coords := (35.0, 105.0)%Q; zoom := 2; areaCode := None |};
    {| id := china; label := "中国"; coords := (35.8617, 104.1954)%Q; zoom := 4; areaCode := None |};
    {| id := zunyi; label := "遵义"; coords := (27.7274, 106.9723)%Q; zoom := 6; areaCode := Some 520300%Z |};
    {| id := yangpu; label := "杨浦"; coords := (31.2626, 121.5369)%Q; zoom := 8; areaCode := Some 310110%Z |} ].

(** *** Widget state

    Library objects live in two stores and are referred to by handle (their
    position in the store), so that a ref and a closure can hold the same
    instance. *)

Inductive LoadPhase : Type :=
| AwaitingResponse   (* suspended at [await fetch('/cn.json')] *)
| AwaitingBody       (* suspended at [await response.json()] *)
| Settled.

(** One invocation of [loadGeoJSON]; [task_map] is the [map] constant of
    the effect run that started it. *)
Record LoadTask : Type := mkTask {
  task_url : string;
  task_map : nat;
  task_phase : LoadPhase
}.

Record Widget : Type := mkWidget {
  maps : list Map;
  overlays : list GeoJSON;
  mapRef : option nat;           (* mapRef.current *)
  geojsonRef : option nat;       (* geojsonRef.current *)
  isMapVisible : bool;
  tasks : list LoadTask;
  cleanupMap : option nat;       (* [map] held by the cleanup the init effect returned *)
  observing : bool;              (* the observer is registered on the container *)
  console : list (string * string)
}.

Definition with_maps (f : list Map → list Map) (w : Widget) : Widget :=
  {| maps := f (maps w); overlays := overlays w; mapRef := mapRef w;
     geojsonRef := geojsonRef w; isMapVisible := isMapVisible w;
     tasks := tasks w; cleanupMap := cleanupMap w; observing := observing w;
     console := console w |}.

Definition with_overlays (f : list GeoJSON → list GeoJSON) (w : Widget) : Widget :=
  {| maps := maps w; overlays := f (overlays w); mapRef := mapRef w;
     geojsonRef := geojsonRef w; isMapVisible := isMapVisible w;
     tasks := tasks w; cleanupMap := cleanupMap w; observing := observing w;
     console := console w |}.

Definition with_tasks (f : list LoadTask → list LoadTask) (w : Widget) : Widget :=
  {| maps := maps w; overlays := overlays w; mapRef := mapRef w;
     geojsonRef := geojsonRef w; isMapVisible := isMapVisible w;
     tasks := f (tasks w); cleanupMap := cleanupMap w; observing := observing w;
     console := console w |}.

(** The state of a component instance at its first render:
    both refs are null and [useState(true)] gives the visibility flag. *)
Definition initial : Widget :=
  {| maps := []; overlays := []; mapRef := None; geojsonRef := None;
     isMapVisible := true; tasks := []; cleanupMap := None;
     observing := false; console := [] |}.

(** *** handleLocationClick *)

(** [layer.feature?.properties?.adcode] *)
Definition layer_adcode (layer : Layer) : option Z :=
  properties (feature layer) ≫= adcode.

(** Truthiness of an optional number: undefined and 0 are falsy. *)
Definition truthy (n : option Z) : bool :=
  match n with
  | Some v => negb (v =? 0)%Z
  | None => false
  end.

(** The test made by the [eachLayer] callback on one layer:
    [adcode] truthy, and then [id === 'china' || adcode === areaCode]. *)
Definition highlights (location : ILocation) (layer : Layer) : bool :=
  let adcode := layer_adcode layer in
  if negb (truthy adcode) then false
  else bool_decide (id location = china) || bool_decide (adcode = areaCode location).

(** The [eachLayer] loop of [handleLocationClick] over the layers from
    position [i] on; [sel] is the value of [geojson.selectedLayer] so far. *)
Fixpoint eachLayer_highlight (location : ILocation) (i : nat) (ls : list Layer)
    (sel : option nat) : list Layer * option nat :=
  match ls with
  | [] => ([], sel)
  | layer :: rest =>
      if highlights location layer then
        let '(rest', sel') := eachLayer_highlight location (S i) rest (Some i) in
        (Path_setStyle highlightStyle layer :: rest', sel')
      else
        let '(rest', sel') := eachLayer_highlight location (S i) rest sel in
        (layer :: rest', sel')
  end.

(** The effect of [handleLocationClick] on the overlay object. *)
Definition select_on_overlay (location : ILocation) (geojson : GeoJSON) : GeoJSON :=
  (* geojson.setStyle(defaultStyle()); *)
  let g1 := GeoJSON_setStyle defaultStyle geojson in
  (* geojson.selectedLayer = null; *)
  let g2 := {| layers := layers g1; selectedLayer := None |} in
  (* if (location.id !== 'global') geojson.eachLayer(...) *)
  if bool_decide (id location ≠ global) then
    let '(ls, sel) := eachLayer_highlight location 0 (layers g2) (selectedLayer g2) in
    {| layers := ls; selectedLayer := sel |}
  else g2.

Definition handleLocationClick (location : ILocation) (w : Widget) : Widget :=
  match mapRef w, geojsonRef w with
  | Some map, Some geojson =>
      let w1 := with_overlays (alter (select_on_overlay location) geojson) w in
      (* map.flyTo(location.coords, location.zoom, { duration: 1.2 }); *)
      with_maps (alter (call (flyTo (coords location) (zoom location) 1.2%Q)) map) w1
  | _, _ => w   (* if (!map || !geojson) return; *)
  end.

(** *** Pointer handlers bound to every boundary feature *)

(** [geojsonRef.current?.selectedLayer] is truthy: an overlay is stored and
    its back-reference holds a layer. *)
Definition hasSelection (w : Widget) : bool :=
  match geojsonRef w with
  | Some r =>
      match overlays w !! r with
      | Some geojson => bool_decide (is_Some (selectedLayer geojson))
      | None => false
      end
  | None => false
  end.

Definition alter_layer (f : Layer → Layer) (i : nat) (g : GeoJSON) : GeoJSON :=
  {| layers := alter f i (layers g); selectedLayer := selectedLayer g |}.

(** [mouseover] on layer [i] of overlay [g]: the handler restyles the
    layer it was bound to, but reads the selection from [geojsonRef]. *)
Definition mouseover (g i : nat) (w : Widget) : Widget :=
  if negb (hasSelection w) then
    with_overlays (alter (alter_layer (Path_setStyle hoverStyle) i) g) w
  else w.

(** [mouseout] on layer [i] of overlay [g]:
    [geojsonRef.current?.setStyle(defaultStyle)] when nothing is selected. *)
Definition mouseout (g i : nat) (w : Widget) : Widget :=
  if negb (hasSelection w) then
    match geojsonRef w with
    | Some r => with_overlays (alter (GeoJSON_setStyle defaultStyle) r) w
    | None => w
    end
  else w.

(** *** Map initialisation effect and loadGeoJSON *)

Definition tileUrl : string :=
  "https://{s}.basemaps.cartocdn.com/light_nolabels/{z}/{x}/{y}{r}.png".

(** [L.map(container, {...}).setView([35.8617, 104.1954], 4)] followed by
    [L.tileLayer(...).addTo(map)]. *)
Definition newMap : Map :=
  {| mapOptions := {| zoomControl := false; scrollWheelZoom := false;
                      doubleClickZoom := false; boxZoom := false;
                      attributionControl := false |};
     calls := [ setView (35.8617, 104.1954)%Q 4;
                addLayer (tileLayer tileUrl 18 false) ] |}.

(** The call [loadGeoJSON()]: the function runs up to
    [await fetch('/cn.json')] and is suspended there, holding [map]. *)
Definition loadGeoJSON (map : nat) (w : Widget) : Widget :=
  with_tasks (λ ts, (ts ++ [ {| task_url := "/cn.json"; task_map := map;
                                task_phase := AwaitingResponse |} ])%list) w.

(** The first effect.  [container] tells whether [mapContainerRef.current]
    is set when the effect runs.  On the early return no cleanup is
    registered; otherwise the map is created and stored, [loadGeoJSON] is
    called, and the cleanup closing over [map] is registered. *)
Definition initEffect (container : bool) (w : Widget) : Widget :=
  if negb container || bool_decide (is_Some (mapRef w)) then
    {| maps := maps w; overlays := overlays w; mapRef := mapRef w;
       geojsonRef := geojsonRef w; isMapVisible := isMapVisible w;
       tasks := tasks w; cleanupMap := None; observing := observing w;
       console := console w |}
  else
    let map := length (maps w) in
    loadGeoJSON map
      {| maps := maps w ++ [newMap]; overlays := overlays w; mapRef := Some map;
         geojsonRef := geojsonRef w; isMapVisible := isMapVisible w;
         tasks := tasks w; cleanupMap := Some map; observing := observing w;
         console := console w |}.

(** Cleanup of the first effect: [map.remove(); mapRef.current = null;]. *)
Definition initCleanup (w : Widget) : Widget :=
  match cleanupMap w with
  | Some map =>
      {| maps := alter (call remove) map (maps w); overlays := overlays w;
         mapRef := None; geojsonRef := geojsonRef w;
         isMapVisible := isMapVisible w; tasks := tasks w;
         cleanupMap := None; observing := observing w; console := console w |}
  | None => w
  end.

(** How the promise returned by [fetch] settles. *)
Inductive FetchResult : Type :=
| FetchRejected (reason : string)
| Response (ok : bool).

(** What [response.json()] resolves to: a feature collection of boundary
    shapes, or a value that [L.geoJson] rejects by throwing. *)
Inductive GeoData : Type :=
| InvalidGeoJSON
| FeatureCollection (features : list Feature).

Inductive JsonResult : Type :=
| JsonRejected (reason : string)
| JsonValue (geoData : GeoData).

(** How a piece of the [try] block ends. *)
Inductive Completion : Type :=
| Normal
| Thrown (error : string).

Definition set_phase (t : nat) (p : LoadPhase) (w : Widget) : Widget :=
  with_tasks (alter (λ task, {| task_url := task_url task; task_map := task_map task;
                                task_phase := p |}) t) w.

Definition is_removed (w : Widget) (map : nat) : bool :=
  match maps w !! map with
  | Some m => removed m
  | None => false
  end.

Section Loading.

(** The library does not document what [addTo] does on a map that has been
    removed; how the call completes for a given overlay is left open. *)
Variable addTo_removed : GeoJSON → Completion.

(** The [try] block from the settlement of [fetch] to the next [await]. *)
Definition loadGeoJSON_response (t : nat) (r : FetchResult) (w : Widget) : Widget * Completion :=
  match r with
  | FetchRejected reason => (w, Thrown reason)
  | Response false => (w, Thrown "加载地图数据失败")
  | Response true => (set_phase t AwaitingBody w, Normal)
  end.

(** The [try] block from the settlement of [response.json()] to its end. *)
Definition loadGeoJSON_body (t : nat) (task : LoadTask) (r : JsonResult) (w : Widget)
    : Widget * Completion :=
  match r with
  | JsonRejected reason => (w, Thrown reason)
  | JsonValue InvalidGeoJSON => (w, Thrown "Invalid GeoJSON object.")
  | JsonValue (FeatureCollection features) =>
      (* const geojson = L.geoJson(geoData, {...}) *)
      let geojson := length (overlays w) in
      let created := geoJson features defaultStyle in
      let w1 := with_overlays (λ os, (os ++ [created])%list) w in
      (* .addTo(map), on the map of the effect run that started the task *)
      let w2 := with_maps (alter (call (addLayer (overlay geojson))) (task_map task)) w1 in
      match (if is_removed w (task_map task) then addTo_removed created else Normal) with
      | Thrown error => (w2, Thrown error)
      | Normal =>
          (* geojsonRef.current = geojson; *)
          ({| maps := maps w2; overlays := overlays w2; mapRef := mapRef w2;
              geojsonRef := Some geojson; isMapVisible := isMapVisible w2;
              tasks := tasks w2; cleanupMap := cleanupMap w2;
              observing := observing w2; console := console w2 |}, Normal)
      end
  end.

(** [catch (error) { console.error('地图数据加载错误:', error); }], after
    which the task is over. *)
Definition loadGeoJSON_catch (t : nat) (r : Widget * Completion) : Widget :=
  match r with
  | (w, Normal) => w
  | (w, Thrown error) =>
      let w' := set_phase t Settled w in
      {| maps := maps w'; overlays := overlays w'; mapRef := mapRef w';
         geojsonRef := geojsonRef w'; isMapVisible := isMapVisible w';
         tasks := tasks w'; cleanupMap := cleanupMap w';
         observing := observing w';
         console := console w' ++ [("地图数据加载错误:", error)] |}
  end.

(** Task [t] resumes because its [fetch] settled. *)
Definition onFetchSettled (t : nat) (r : FetchResult) (w : Widget) : Widget :=
  match tasks w !! t with
  | Some task =>
      match task_phase task with
      | AwaitingResponse => loadGeoJSON_catch t (loadGeoJSON_response t r w)
      | _ => w
      end
  | None => w
  end.

(** Task [t] resumes because [response.json()] settled. *)
Definition onJsonSettled (t : nat) (r : JsonResult) (w : Widget) : Widget :=
  match tasks w !! t with
  | Some task =>
      match task_phase task with
      | AwaitingBody =>
          match loadGeoJSON_body t task r w with
          | (w', Normal) => set_phase t Settled w'
          | thrown => loadGeoJSON_catch t thrown
          end
      | _ => w
      end
  | None => w
  end.

End Loading.

(** *** Intersection observer and rendering *)

Record IntersectionObserverEntry : Type := mkEntry {
  isIntersecting : bool;
  intersectionRatio : Q
}.

(** [a > b] on numbers. *)
Definition Qgtb (a b : Q) : bool := negb (Qle_bool a b).

(** The observer callback:
    [setIsMapVisible(entry.isIntersecting && entry.intersectionRatio > 0.5)]. *)
Definition onIntersection (entry : IntersectionObserverEntry) (w : Widget) : Widget :=
  {| maps := maps w; overlays := overlays w; mapRef := mapRef w;
     geojsonRef := geojsonRef w;
     isMapVisible := isIntersecting entry && Qgtb (intersectionRatio entry) 0.5%Q;
     tasks := tasks w; cleanupMap := cleanupMap w; observing := observing w;
     console := console w |}.

(** The second effect registers the observer when the container is there;
    its cleanup unregisters it. *)
Definition set_observing (b : bool) (w : Widget) : Widget :=
  {| maps := maps w; overlays := overlays w; mapRef := mapRef w;
     geojsonRef := geojsonRef w; isMapVisible := isMapVisible w;
     tasks := tasks w; cleanupMap := cleanupMap w; observing := b;
     console := console w |}.

Definition observerEffect (container : bool) (w : Widget) : Widget :=
  if container then set_observing true w else w.

Definition observerCleanup (w : Widget) : Widget := set_observing false w.

(** A rendered button: its key, the location its [onClick] passes to
    [handleLocationClick], and its text. *)
Record Button : Type := mkButton {
  key : LocationId;
  onClick : ILocation;
  children : string
}.

(** The part of the render output that varies: the button panel, present
    only under [isMapVisible &&]. *)
Record View : Type := mkView {
  panel : option (list Button)
}.

Definition buttons : list Button :=
  (λ location, {| key := id location; onClick := location; children := label location |})
    <$> locations.

Definition render (w : Widget) : View :=
  {| panel := if isMapVisible w then Some buttons else None |}.

(** *** Events of the UI loop *)

Inductive Event : Type :=
| Mount (container : bool)
| Unmount
| FetchSettled (t : nat) (r : FetchResult)
| JsonSettled (t : nat) (r : JsonResult)
| Click (location : ILocation)
| MouseOver (g i : nat)
| MouseOut (g i : nat)
| Intersection (entry : IntersectionObserverEntry).

Section Run.

Variable addTo_removed : GeoJSON → Completion.

Definition step (w : Widget) (e : Event) : Widget :=
  match e with
  | Mount container => observerEffect container (initEffect container w)
  | Unmount => observerCleanup (initCleanup w)
  | FetchSettled t r => onFetchSettled t r w
  | JsonSettled t r => onJsonSettled addTo_removed t r w
  | Click location =>
      (* a button exists only while the panel is rendered *)
      if isMapVisible w then handleLocationClick location w else w
  | MouseOver g i => mouseover g i w
  | MouseOut g i => mouseout g i w
  | Intersection entry => onIntersection entry w
  end.

Definition run (es : list Event) (w : Widget) : Widget := foldl step w es.

End Run.

(** *** Vocabulary of the properties *)

(** A style that defines every tracked key replaces the options wholesale. *)
Definition full (style : PathOptions) : Prop :=
  is_Some (fillColor style) ∧ is_Some (weight style) ∧ is_Some (opacity style) ∧
  is_Some (color style) ∧ is_Some (fillOpacity style).

(** What the loop leaves on one layer. *)
Definition restyle (location : ILocation) (layer : Layer) : Layer :=
  if highlights location layer then Path_setStyle highlightStyle layer else layer.

(** The style [handleLocationClick] leaves on a layer depends on the
    layer's feature and on the location only. *)
Definition style_after (location : ILocation) (layer : Layer) : PathOptions :=
  if bool_decide (id location ≠ global) && highlights location layer
  then highlightStyle else defaultStyle.

Definition restyled (layer : Layer) (style : PathOptions) : Layer :=
  {| feature := feature layer; options := style |}.

(** An entry that reports more than half of the target inside the root
    also reports the target as intersecting. *)
Definition consistent_entry (entry : IntersectionObserverEntry) : Prop :=
  (0.5 < intersectionRatio entry)%Q → isIntersecting entry = true.

Definition is_intersection (e : Event) : bool :=
  match e with
  | Intersection _ => true
  | _ => false
  end.



(** The options of every layer of every overlay. *)
Definition styles (w : Widget) : list (list PathOptions) :=
  (λ geojson, options <$> layers geojson) <$> overlays w.

(** The options of a layer hovered while it was in the default style. *)
Definition hoveredStyle : PathOptions := setOptions hoverStyle defaultStyle.

(** Hover and selection styles do not mix on one overlay: with a
    back-reference every layer is default or selected, without one every
    layer is default or hovered. *)
Definition overlay_consistent (ov : GeoJSON) : Prop :=
  match selectedLayer ov with
  | Some _ =>
      Forall (λ layer, options layer = defaultStyle ∨ options layer = highlightStyle)
        (layers ov)
  | None =>
      Forall (λ layer, options layer = defaultStyle ∨ options layer = hoveredStyle)
        (layers ov)
  end.

(** The overlay held by [geojsonRef], if any, is consistent. *)
Definition stored_consistent (w : Widget) : Prop :=
  ∀ r ov, geojsonRef w = Some r → overlays w !! r = Some ov → overlay_consistent ov.

(** A pointer-enter event, if [e] is one, is on a layer of the overlay held
    by [geojsonRef]. *)
Definition hovers_stored (w : Widget) (e : Event) : Prop :=
  ∀ g i, e = MouseOver g i → geojsonRef w = Some g.

(** Some [flyTo] comes after a [remove] in a call log. *)
Fixpoint flyTo_after_remove (cs : list MapCall) : bool :=
  match cs with
  | [] => false
  | remove :: rest => existsb is_flyTo rest
  | _ :: rest => flyTo_after_remove rest
  end.

(** How often [remove] was called on a map. *)
Definition removals (m : Map) : nat := length (List.filter is_remove (calls m)).

Definition is_overlay_add (c : MapCall) : bool :=
  match c with
  | addLayer (overlay _) => true
  | _ => false
  end.

(** How many overlays were added to a map. *)
Definition overlay_adds (m : Map) : nat := length (List.filter is_overlay_add (calls m)).

(** Map [m] of a store exists and has not been removed. *)
Definition live (ms : list Map) (m : nat) : Prop :=
  ∃ mp, ms !! m = Some mp ∧ removed mp = false.

(** No map of a store was flown after its removal or removed twice. *)
Definition logs_ok (ms : list Map) : Prop :=
  ∀ m mp, ms !! m = Some mp →
    flyTo_after_remove (calls mp) = false ∧ removals mp ≤ 1.

(** What the refs and the call logs of the maps satisfy in every state the
    widget reaches. *)
Definition maps_invariant (w : Widget) : Prop :=
  (∀ m, mapRef w = Some m → live (maps w) m) ∧
  (∀ m, cleanupMap w = Some m → live (maps w) m) ∧
  (∀ m mp, maps w !! m = Some mp →
     flyTo_after_remove (calls mp) = false ∧ removals mp ≤ 1).

(** What the load tasks satisfy in every state the widget reaches: task
    [t] is the load started for map [t], and a map has no overlay before
    its load is over and at most one after. *)
Definition tasks_invariant (w : Widget) : Prop :=
  length (tasks w) = length (maps w) ∧
  (∀ t task, tasks w !! t = Some task →
     task_map task = t ∧ task_url task = "/cn.json") ∧
  (∀ m mp, maps w !! m = Some mp →
     overlay_adds mp ≤ 1 ∧
     ∀ task, tasks w !! m = Some task → task_phase task ≠ Settled → overlay_adds mp = 0).



Definition is_mount (e : Event) : bool :=
  match e with
  | Mount _ => true
  | _ => false
  end.

(** *** Concrete scenarios *)

Definition preset_global : ILocation :=
  {| id := global; label := "全球"; coords := (35.0, 105.0)%Q; zoom := 2; areaCode := None |}.
Definition preset_china : ILocation :=
  {| id := china; label := "中国"; coords := (35.8617, 104.1954)%Q; zoom := 4; areaCode := None |}.
Definition preset_zunyi : ILocation :=
  {| id := zunyi; label := "遵义"; coords := (27.7274, 106.9723)%Q; zoom := 6;
     areaCode := Some 520300%Z |}.
Definition preset_yangpu : ILocation :=
  {| id := yangpu; label := "杨浦"; coords := (31.2626, 121.5369)%Q; zoom := 8;
     areaCode := Some 310110%Z |}.

Definition boundary (code : option Z) (n : string) : Feature :=
  {| properties := Some {| adcode := code; name := Some n |} |}.

(** A geometry document with a duplicated area code, a feature without
    area code, one with area code 0 and one without properties. *)
Definition sample_geometry : list Feature :=
  [ boundary (Some 520300%Z) "遵义市";
    boundary None "境界线";
    boundary (Some 310110%Z) "杨浦区";
    boundary (Some 0%Z) "未定";
    boundary (Some 520300%Z) "遵义市";
    {| properties := None |} ].

(** Mounted, geometry loaded, nothing selected yet. *)
Definition loaded_widget : Widget :=
  run (λ _, Normal)
    [ Mount true; FetchSettled 0 (Response true);
      JsonSettled 0 (JsonValue (FeatureCollection sample_geometry)) ] initial.


(** Mounted, response received, then unmounted while the body is parsed. *)
Definition unmounted_widget : Widget :=
  run (λ _, Normal) [ Mount true; FetchSettled 0 (Response true); Unmount ] initial.

(** The country is selected on the loaded sample. *)
Definition selected_widget : Widget := handleLocationClick preset_china loaded_widget.

(** ** Properties *)

(** *** Styles *)

Lemma setOptions_full style current : full style → setOptions style current = style.
Proof.
  destruct style as [fc wt op co fo]; unfold full; simpl.
  intros ([? ->] & [? ->] & [? ->] & [? ->] & [? ->]). reflexivity.
Qed.

Lemma defaultStyle_full : full defaultStyle.
Proof. repeat split; eexists; reflexivity. Qed.

Lemma highlightStyle_full : full highlightStyle.
Proof. repeat split; eexists; reflexivity. Qed.

Lemma setStyle_default layer :
  Path_setStyle defaultStyle layer = {| feature := feature layer; options := defaultStyle |}.
Proof. unfold Path_setStyle. by rewrite (setOptions_full _ _ defaultStyle_full). Qed.

Lemma setStyle_highlight layer :
  Path_setStyle highlightStyle layer = {| feature := feature layer; options := highlightStyle |}.
Proof. unfold Path_setStyle. by rewrite (setOptions_full _ _ highlightStyle_full). Qed.

Lemma highlightStyle_not_default : highlightStyle ≠ defaultStyle.
Proof. discriminate. Qed.

(** *** The eachLayer loop *)

Lemma eachLayer_highlight_layers location ls : ∀ i sel,
  (eachLayer_highlight location i ls sel).1 = restyle location <$> ls.
Proof.
  induction ls as [|layer rest IH]; intros i sel; simpl; [done|].
  unfold restyle at 1.
  destruct (highlights location layer).
  - specialize (IH (S i) (Some i)).
    destruct (eachLayer_highlight location (S i) rest (Some i)) as [rest' sel']; simpl in *; by f_equal.
  - specialize (IH (S i) sel).
    destruct (eachLayer_highlight location (S i) rest sel) as [rest' sel']; simpl in *; by f_equal.
Qed.

(** The back-reference after the loop is the one it started with, or a
    layer the loop highlighted. *)
Lemma eachLayer_highlight_selected location ls : ∀ i sel j,
  (eachLayer_highlight location i ls sel).2 = Some j →
  sel = Some j ∨ ∃ layer, i ≤ j ∧ ls !! (j - i) = Some layer ∧ highlights location layer = true.
Proof.
  induction ls as [|layer rest IH]; intros i sel j; simpl; [by left|].
  destruct (highlights location layer) eqn:Hh.
  - specialize (IH (S i) (Some i) j).
    destruct (eachLayer_highlight location (S i) rest (Some i)) as [rest' sel']; simpl in *.
    intros Hj. destruct (IH Hj) as [[= <-]|(l & Hle & Hl & Hhl)]; right.
    + exists layer. rewrite Nat.sub_diag. by repeat split.
    + exists l. repeat split; [lia| |done].
      by replace (j - i) with (S (j - S i)) by lia.
  - specialize (IH (S i) sel j).
    destruct (eachLayer_highlight location (S i) rest sel) as [rest' sel']; simpl in *.
    intros Hj. destruct (IH Hj) as [?|(l & Hle & Hl & Hhl)]; [by left|right].
    exists l. repeat split; [lia| |done].
    by replace (j - i) with (S (j - S i)) by lia.
Qed.

(** Once a layer is highlighted, the loop ends with some back-reference. *)
Lemma eachLayer_highlight_some location ls : ∀ i sel,
  (is_Some sel ∨ ∃ layer, layer ∈ ls ∧ highlights location layer = true) →
  is_Some (eachLayer_highlight location i ls sel).2.
Proof.
  induction ls as [|layer rest IH]; intros i sel H; simpl.
  - destruct H as [?|(l & Hl & _)]; [done|]. by apply elem_of_nil in Hl.
  - destruct (highlights location layer) eqn:Hh.
    + specialize (IH (S i) (Some i)).
      destruct (eachLayer_highlight location (S i) rest (Some i)) as [rest' sel']; simpl in *.
      apply IH. by left.
    + specialize (IH (S i) sel).
      destruct (eachLayer_highlight location (S i) rest sel) as [rest' sel']; simpl in *.
      apply IH. destruct H as [?|(l & Hl & Hhl)]; [by left|right].
      apply elem_of_cons in Hl as [->|Hl]; [congruence|]. by exists l.
Qed.

Lemma highlights_setStyle location style layer :
  highlights location (Path_setStyle style layer) = highlights location layer.
Proof. reflexivity. Qed.

Lemma select_on_overlay_layers location geojson :
  layers (select_on_overlay location geojson) =
  (λ layer, {| feature := feature layer; options := style_after location layer |})
    <$> layers geojson.
Proof.
  unfold select_on_overlay, style_after. case_bool_decide as Hid; simpl.
  - pose proof (eachLayer_highlight_layers location
      (Path_setStyle defaultStyle <$> layers geojson) 0 None) as H.
    destruct (eachLayer_highlight location 0 _ None) as [ls sel]; simpl in *.
    rewrite H, <- list_fmap_compose. apply list_fmap_ext. intros _ layer _; simpl.
    unfold restyle. rewrite highlights_setStyle.
    destruct (highlights location layer).
    + by rewrite setStyle_highlight.
    + by rewrite setStyle_default.
  - apply list_fmap_ext. intros _ layer _. by rewrite setStyle_default.
Qed.

Lemma select_on_overlay_lookup location geojson i layer :
  layers geojson !! i = Some layer →
  layers (select_on_overlay location geojson) !! i =
    Some {| feature := feature layer; options := style_after location layer |}.
Proof.
  intros H. by rewrite select_on_overlay_layers, list_lookup_fmap, H.
Qed.

Lemma select_on_overlay_length location geojson :
  length (layers (select_on_overlay location geojson)) = length (layers geojson).
Proof. by rewrite select_on_overlay_layers, length_fmap. Qed.

Lemma select_on_overlay_selected location geojson j :
  selectedLayer (select_on_overlay location geojson) = Some j →
  id location ≠ global ∧
  ∃ layer, layers geojson !! j = Some layer ∧ highlights location layer = true.
Proof.
  unfold select_on_overlay. case_bool_decide as Hid; simpl; [|done].
  pose proof (eachLayer_highlight_selected location
    (Path_setStyle defaultStyle <$> layers geojson) 0 None j) as H.
  destruct (eachLayer_highlight location 0 _ None) as [ls sel]; simpl in *.
  intros Hj. destruct (H Hj) as [?|(l & _ & Hl & Hhl)]; [done|].
  split; [done|]. rewrite Nat.sub_0_r, list_lookup_fmap in Hl.
  destruct (layers geojson !! j) as [layer|]; [|done].
  injection Hl as <-. by exists layer.
Qed.

(** *** handleLocationClick on the widget *)

Lemma handleLocationClick_ready location w map geojson :
  mapRef w = Some map → geojsonRef w = Some geojson →
  handleLocationClick location w =
    with_maps (alter (call (flyTo (coords location) (zoom location) 1.2%Q)) map)
      (with_overlays (alter (select_on_overlay location) geojson) w).
Proof. intros Hm Hg. unfold handleLocationClick. by rewrite Hm, Hg. Qed.

Lemma handleLocationClick_overlay location w map geojson ov :
  mapRef w = Some map → geojsonRef w = Some geojson →
  overlays w !! geojson = Some ov →
  overlays (handleLocationClick location w) !! geojson = Some (select_on_overlay location ov).
Proof.
  intros Hm Hg Hov. rewrite (handleLocationClick_ready _ _ _ _ Hm Hg); simpl.
  by rewrite list_lookup_alter_eq, Hov.
Qed.

Lemma handleLocationClick_flyTo location w map geojson m :
  mapRef w = Some map → geojsonRef w = Some geojson →
  maps w !! map = Some m →
  maps (handleLocationClick location w) !! map =
    Some (call (flyTo (coords location) (zoom location) 1.2%Q) m).
Proof.
  intros Hm Hg Hmap. rewrite (handleLocationClick_ready _ _ _ _ Hm Hg); simpl.
  by rewrite list_lookup_alter_eq, Hmap.
Qed.

Lemma handleLocationClick_not_ready location w :
  mapRef w = None ∨ geojsonRef w = None → handleLocationClick location w = w.
Proof.
  unfold handleLocationClick. intros [H|H]; rewrite H; [done|].
  by destruct (mapRef w).
Qed.

Lemma locations_presets :
  locations = [preset_global; preset_china; preset_zunyi; preset_yangpu].
Proof. reflexivity. Qed.

(** *** Selection before initialisation *)

(** C7: while the map instance or the overlay is not yet stored in its ref,
    [handleLocationClick] returns at once and leaves the whole widget state
    (styles, back-reference, calls issued on the map) as it was. *)
Theorem select_before_ready_is_noop (location : ILocation) (w : Widget) :
  mapRef w = None ∨ geojsonRef w = None →
  handleLocationClick location w = w.
Proof.
  intros Hnull. unfold handleLocationClick.
  destruct (mapRef w) as [map|] eqn:Hmap; [|reflexivity].
  destruct (geojsonRef w) as [geojson|] eqn:Hgeo; [|reflexivity].
  destruct Hnull as [Hnull|Hnull]; discriminate Hnull.
Qed.

Lemma select_before_ready_is_noop_witness :
  (mapRef (run (λ _, Normal) [Mount true] initial) = None ∨
   geojsonRef (run (λ _, Normal) [Mount true] initial) = None) ∧
  handleLocationClick preset_zunyi (run (λ _, Normal) [Mount true] initial) =
    run (λ _, Normal) [Mount true] initial.
Proof.
  split; [right; reflexivity|].
  apply (select_before_ready_is_noop preset_zunyi (run (λ _, Normal) [Mount true] initial)).
  right; reflexivity.
Defined.

(** *** Regional selection *)

(** For a location that is not the country and carries a non-zero area
    code, the callback's test is equality of area codes. *)
Lemma highlights_region location code layer :
  id location ≠ china → areaCode location = Some code → code ≠ 0%Z →
  highlights location layer = bool_decide (layer_adcode layer = areaCode location).
Proof.
  intros Hid Hcode Hnz. unfold highlights, truthy. rewrite Hcode.
  destruct (layer_adcode layer) as [a|]; simpl.
  - destruct (Z.eqb_spec a 0) as [->|Ha]; simpl.
    + symmetry. apply bool_decide_eq_false. congruence.
    + by rewrite bool_decide_eq_false_2.
  - reflexivity.
Qed.

Lemma regional_presets location :
  location ∈ locations → id location ≠ china → id location ≠ global →
  ∃ code, areaCode location = Some code ∧ code ≠ 0%Z.
Proof.
  intros Hin Hc Hg. apply list_elem_of_In in Hin. simpl in Hin.
  destruct Hin as [<-|[<-|[<-|[<-|[]]]]]; simpl in *; try done;
    eexists; (split; [reflexivity|done]).
Qed.

(** C3: for every preset other than the country and the global one,
    [handleLocationClick] leaves the selected style on exactly the boundary
    features whose area code equals the preset's area code (on all of them
    when the code occurs more than once) and the default style on every
    other feature. *)
Theorem regional_selection_highlights_exactly_matching
    (location : ILocation) (w : Widget) (map geojson : nat) (ov : GeoJSON) :
  location ∈ locations → id location ≠ china → id location ≠ global →
  mapRef w = Some map → geojsonRef w = Some geojson →
  overlays w !! geojson = Some ov →
  ∃ ov', overlays (handleLocationClick location w) !! geojson = Some ov' ∧
    length (layers ov') = length (layers ov) ∧
    ∀ i layer, layers ov !! i = Some layer →
      layers ov' !! i =
        Some (restyled layer
                (if bool_decide (layer_adcode layer = areaCode location)
                 then highlightStyle else defaultStyle)).
Proof.
  intros Hin Hc Hg Hm Hgj Hov.
  destruct (regional_presets _ Hin Hc Hg) as (code & Hcode & Hnz).
  exists (select_on_overlay location ov). split; [|split].
  - by apply handleLocationClick_overlay with map.
  - apply select_on_overlay_length.
  - intros i layer Hl. rewrite (select_on_overlay_lookup _ _ _ _ Hl).
    unfold style_after, restyled.
    rewrite (highlights_region _ _ _ Hc Hcode Hnz), bool_decide_eq_true_2 by done.
    reflexivity.
Qed.

Lemma regional_selection_highlights_exactly_matching_witness :
  preset_zunyi ∈ locations ∧ id preset_zunyi ≠ china ∧ id preset_zunyi ≠ global ∧
  mapRef loaded_widget = Some 0 ∧ geojsonRef loaded_widget = Some 0 ∧
  overlays loaded_widget !! 0 = Some (geoJson sample_geometry defaultStyle) ∧
  ∃ ov', overlays (handleLocationClick preset_zunyi loaded_widget) !! 0 = Some ov' ∧
    length (layers ov') = length (layers (geoJson sample_geometry defaultStyle)) ∧
    ∀ i layer, layers (geoJson sample_geometry defaultStyle) !! i = Some layer →
      layers ov' !! i =
        Some (restyled layer
                (if bool_decide (layer_adcode layer = areaCode preset_zunyi)
                 then highlightStyle else defaultStyle)).
Proof.
  assert (Hin : preset_zunyi ∈ locations) by (rewrite locations_presets; repeat constructor).
  assert (Hc : id preset_zunyi ≠ china) by discriminate.
  assert (Hg : id preset_zunyi ≠ global) by discriminate.
  repeat (split; [first [assumption | reflexivity]|]).
  exact (regional_selection_highlights_exactly_matching preset_zunyi loaded_widget 0 0
           (geoJson sample_geometry defaultStyle) Hin Hc Hg eq_refl eq_refl eq_refl).
Defined.

(** *** Country selection *)

Lemma highlights_country location layer :
  id location = china → highlights location layer = truthy (layer_adcode layer).
Proof.
  intros Hid. unfold highlights. rewrite Hid.
  by destruct (truthy (layer_adcode layer)).
Qed.

Lemma truthy_false code : truthy code = false ↔ code = None ∨ code = Some 0%Z.
Proof.
  destruct code as [a|]; simpl.
  - destruct (Z.eqb_spec a 0) as [->|Ha]; simpl; split; intros H; try done.
    + by right.
    + destruct H as [?|[=]]; done.
  - split; [by left|done].
Qed.

Lemma highlights_falsy location layer :
  truthy (layer_adcode layer) = false → highlights location layer = false.
Proof. intros H. unfold highlights. by rewrite H. Qed.

(** C2, as the code has it: selecting the country preset leaves the
    selected style on every loaded boundary feature whose area code is
    present and not 0, all in the same call; a feature whose area code is
    absent or 0 is left in the default style. *)
Theorem country_selection_highlights_coded_features
    (location : ILocation) (w : Widget) (map geojson : nat) (ov : GeoJSON) :
  id location = china →
  mapRef w = Some map → geojsonRef w = Some geojson →
  overlays w !! geojson = Some ov →
  ∃ ov', overlays (handleLocationClick location w) !! geojson = Some ov' ∧
    length (layers ov') = length (layers ov) ∧
    ∀ i layer, layers ov !! i = Some layer →
      layers ov' !! i =
        Some (restyled layer
                (if truthy (layer_adcode layer) then highlightStyle else defaultStyle)).
Proof.
  intros Hid Hm Hgj Hov.
  exists (select_on_overlay location ov). split; [|split].
  - by apply handleLocationClick_overlay with map.
  - apply select_on_overlay_length.
  - intros i layer Hl. rewrite (select_on_overlay_lookup _ _ _ _ Hl).
    unfold style_after, restyled.
    rewrite (highlights_country _ _ Hid), bool_decide_eq_true_2; [done|].
    by rewrite Hid.
Qed.

Lemma country_selection_highlights_coded_features_witness :
  id preset_china = china ∧
  mapRef loaded_widget = Some 0 ∧ geojsonRef loaded_widget = Some 0 ∧
  overlays loaded_widget !! 0 = Some (geoJson sample_geometry defaultStyle) ∧
  ∃ ov', overlays (handleLocationClick preset_china loaded_widget) !! 0 = Some ov' ∧
    length (layers ov') = length (layers (geoJson sample_geometry defaultStyle)) ∧
    ∀ i layer, layers (geoJson sample_geometry defaultStyle) !! i = Some layer →
      layers ov' !! i =
        Some (restyled layer
                (if truthy (layer_adcode layer) then highlightStyle else defaultStyle)).
Proof.
  repeat (split; [reflexivity|]).
  exact (country_selection_highlights_coded_features preset_china loaded_widget 0 0
           (geoJson sample_geometry defaultStyle) eq_refl eq_refl eq_refl eq_refl).
Defined.

(** C2 as stated fails: with the sample geometry loaded, selecting the
    country preset does not leave every feature in the selected style (the
    feature at position 1 has no area code and keeps the default style). *)
Lemma country_selection_not_all_highlighted :
  ¬ (∀ ov' i layer,
       overlays (handleLocationClick preset_china loaded_widget) !! 0 = Some ov' →
       layers ov' !! i = Some layer →
       options layer = highlightStyle).
Proof.
  intros H.
  specialize (H (select_on_overlay preset_china (geoJson sample_geometry defaultStyle)) 1
                (restyled {| feature := boundary None "境界线"; options := defaultStyle |}
                   defaultStyle) eq_refl eq_refl).
  discriminate H.
Qed.

(** *** Features without area code *)

(** C9: whatever the location, a boundary feature whose area code is absent
    or 0 ends [handleLocationClick] in the default style and is not the
    layer recorded in [selectedLayer]. *)
Theorem codeless_feature_never_selected
    (location : ILocation) (w : Widget) (map geojson : nat) (ov : GeoJSON)
    (i : nat) (layer : Layer) :
  mapRef w = Some map → geojsonRef w = Some geojson →
  overlays w !! geojson = Some ov →
  layers ov !! i = Some layer →
  layer_adcode layer = None ∨ layer_adcode layer = Some 0%Z →
  ∃ ov', overlays (handleLocationClick location w) !! geojson = Some ov' ∧
    layers ov' !! i = Some (restyled layer defaultStyle) ∧
    selectedLayer ov' ≠ Some i.
Proof.
  intros Hm Hgj Hov Hl Hcode. apply truthy_false in Hcode.
  exists (select_on_overlay location ov). split; [|split].
  - by apply handleLocationClick_overlay with map.
  - rewrite (select_on_overlay_lookup _ _ _ _ Hl). unfold style_after.
    by rewrite (highlights_falsy _ _ Hcode), andb_false_r.
  - intros Hsel. apply select_on_overlay_selected in Hsel as (_ & l & Hl' & Hh).
    rewrite Hl in Hl'. injection Hl' as <-.
    by rewrite (highlights_falsy _ _ Hcode) in Hh.
Qed.

Lemma codeless_feature_never_selected_witness :
  mapRef loaded_widget = Some 0 ∧ geojsonRef loaded_widget = Some 0 ∧
  overlays loaded_widget !! 0 = Some (geoJson sample_geometry defaultStyle) ∧
  layers (geoJson sample_geometry defaultStyle) !! 3 =
    Some (restyled {| feature := boundary (Some 0%Z) "未定"; options := defaultStyle |}
            defaultStyle) ∧
  (layer_adcode (restyled {| feature := boundary (Some 0%Z) "未定"; options := defaultStyle |}
                   defaultStyle) = None ∨
   layer_adcode (restyled {| feature := boundary (Some 0%Z) "未定"; options := defaultStyle |}
                   defaultStyle) = Some 0%Z) ∧
  ∃ ov', overlays (handleLocationClick preset_china loaded_widget) !! 0 = Some ov' ∧
    layers ov' !! 3 =
      Some (restyled (restyled {| feature := boundary (Some 0%Z) "未定";
                                  options := defaultStyle |} defaultStyle) defaultStyle) ∧
    selectedLayer ov' ≠ Some 3.
Proof.
  repeat (split; [first [reflexivity | right; reflexivity]|]).
  exact (codeless_feature_never_selected preset_china loaded_widget 0 0
           (geoJson sample_geometry defaultStyle) 3
           (restyled {| feature := boundary (Some 0%Z) "未定"; options := defaultStyle |}
              defaultStyle)
           eq_refl eq_refl eq_refl eq_refl (or_intror eq_refl)).
Defined.

(** *** Hover and selection *)

Lemma hasSelection_active w r ov s :
  geojsonRef w = Some r → overlays w !! r = Some ov → selectedLayer ov = Some s →
  hasSelection w = true.
Proof.
  intros Hr Hov Hs. unfold hasSelection. rewrite Hr, Hov, Hs.
  by apply bool_decide_eq_true_2.
Qed.

Lemma hasSelection_idle w r ov :
  geojsonRef w = Some r → overlays w !! r = Some ov → selectedLayer ov = None →
  hasSelection w = false.
Proof.
  intros Hr Hov Hs. unfold hasSelection. rewrite Hr, Hov, Hs.
  apply bool_decide_eq_false_2. by intros [? ?].
Qed.

(** C4: while the overlay's back-reference holds a layer, [mouseover] on
    any feature and [mouseout] from any feature leave the widget as it is,
    so no style changes; and a selection made in that state overwrites every
    feature's style, leaving the selected style only on the features the new
    location highlights and the default style on all others, whatever was
    selected before. *)
Theorem selection_suppresses_hover (w : Widget) (r : nat) (ov : GeoJSON) (s : nat) :
  geojsonRef w = Some r → overlays w !! r = Some ov → selectedLayer ov = Some s →
  (∀ g i, mouseover g i w = w) ∧
  (∀ g i, mouseout g i w = w) ∧
  (∀ location map, mapRef w = Some map →
     ∃ ov', overlays (handleLocationClick location w) !! r = Some ov' ∧
       (∀ i layer, layers ov !! i = Some layer →
          layers ov' !! i =
            Some (restyled layer
                    (if bool_decide (id location ≠ global) && highlights location layer
                     then highlightStyle else defaultStyle))) ∧
       (∀ j, selectedLayer ov' = Some j →
          ∃ layer, layers ov !! j = Some layer ∧ highlights location layer = true)).
Proof.
  intros Hr Hov Hs.
  pose proof (hasSelection_active _ _ _ _ Hr Hov Hs) as Hsel.
  split; [|split].
  - intros g i. unfold mouseover. by rewrite Hsel.
  - intros g i. unfold mouseout. by rewrite Hsel.
  - intros location map Hm. exists (select_on_overlay location ov).
    split; [|split].
    + by apply handleLocationClick_overlay with map.
    + intros i layer Hl. by rewrite (select_on_overlay_lookup _ _ _ _ Hl).
    + intros j Hj. by apply select_on_overlay_selected in Hj as [_ ?].
Qed.

Lemma selection_suppresses_hover_witness :
  geojsonRef selected_widget = Some 0 ∧
  overlays selected_widget !! 0 =
    Some (select_on_overlay preset_china (geoJson sample_geometry defaultStyle)) ∧
  selectedLayer (select_on_overlay preset_china (geoJson sample_geometry defaultStyle)) = Some 4 ∧
  (∀ g i, mouseover g i selected_widget = selected_widget) ∧
  (∀ g i, mouseout g i selected_widget = selected_widget) ∧
  (∀ location map, mapRef selected_widget = Some map →
     ∃ ov', overlays (handleLocationClick location selected_widget) !! 0 = Some ov' ∧
       (∀ i layer,
          layers (select_on_overlay preset_china (geoJson sample_geometry defaultStyle)) !! i
            = Some layer →
          layers ov' !! i =
            Some (restyled layer
                    (if bool_decide (id location ≠ global) && highlights location layer
                     then highlightStyle else defaultStyle))) ∧
       (∀ j, selectedLayer ov' = Some j →
          ∃ layer,
            layers (select_on_overlay preset_china (geoJson sample_geometry defaultStyle)) !! j
              = Some layer ∧ highlights location layer = true)).
Proof.
  do 3 (split; [reflexivity|]).
  exact (selection_suppresses_hover selected_widget 0
           (select_on_overlay preset_china (geoJson sample_geometry defaultStyle)) 4
           eq_refl eq_refl eq_refl).
Defined.

(** C8: while an overlay is stored and its back-reference is empty,
    [mouseover] on a feature merges the hover style into that feature's
    options and touches no other feature, and [mouseout] from any feature
    puts every feature of the stored overlay in the default style. *)
Theorem hover_without_selection (w : Widget) (r : nat) (ov : GeoJSON) :
  geojsonRef w = Some r → overlays w !! r = Some ov → selectedLayer ov = None →
  (∀ i, ∃ ov', overlays (mouseover r i w) !! r = Some ov' ∧
      selectedLayer ov' = None ∧
      (∀ layer, layers ov !! i = Some layer →
         layers ov' !! i = Some (restyled layer (setOptions hoverStyle (options layer)))) ∧
      (∀ j, j ≠ i → layers ov' !! j = layers ov !! j) ∧
      (∀ g, g ≠ r → overlays (mouseover r i w) !! g = overlays w !! g)) ∧
  (∀ g i, ∃ ov', overlays (mouseout g i w) !! r = Some ov' ∧
      selectedLayer ov' = None ∧
      length (layers ov') = length (layers ov) ∧
      ∀ j layer, layers ov !! j = Some layer →
         layers ov' !! j = Some (restyled layer defaultStyle)).
Proof.
  intros Hr Hov Hs.
  pose proof (hasSelection_idle _ _ _ Hr Hov Hs) as Hsel.
  split.
  - intros i. exists (alter_layer (Path_setStyle hoverStyle) i ov).
    unfold mouseover. rewrite Hsel; simpl. repeat split.
    + by rewrite list_lookup_alter_eq, Hov.
    + done.
    + intros layer Hl. by rewrite list_lookup_alter_eq, Hl.
    + intros j Hj. by rewrite list_lookup_alter_ne.
    + intros g Hg. by rewrite list_lookup_alter_ne.
  - intros g i. exists (GeoJSON_setStyle defaultStyle ov).
    unfold mouseout. rewrite Hsel, Hr; simpl. repeat split.
    + by rewrite list_lookup_alter_eq, Hov.
    + done.
    + by rewrite length_fmap.
    + intros j layer Hl. rewrite list_lookup_fmap, Hl; simpl.
      by rewrite setStyle_default.
Qed.

Lemma hover_without_selection_witness :
  geojsonRef loaded_widget = Some 0 ∧
  overlays loaded_widget !! 0 = Some (geoJson sample_geometry defaultStyle) ∧
  selectedLayer (geoJson sample_geometry defaultStyle) = None ∧
  (∀ i, ∃ ov', overlays (mouseover 0 i loaded_widget) !! 0 = Some ov' ∧
      selectedLayer ov' = None ∧
      (∀ layer, layers (geoJson sample_geometry defaultStyle) !! i = Some layer →
         layers ov' !! i = Some (restyled layer (setOptions hoverStyle (options layer)))) ∧
      (∀ j, j ≠ i → layers ov' !! j = layers (geoJson sample_geometry defaultStyle) !! j) ∧
      (∀ g, g ≠ 0 → overlays (mouseover 0 i loaded_widget) !! g = overlays loaded_widget !! g)) ∧
  (∀ g i, ∃ ov', overlays (mouseout g i loaded_widget) !! 0 = Some ov' ∧
      selectedLayer ov' = None ∧
      length (layers ov') = length (layers (geoJson sample_geometry defaultStyle)) ∧
      ∀ j layer, layers (geoJson sample_geometry defaultStyle) !! j = Some layer →
         layers ov' !! j = Some (restyled layer defaultStyle)).
Proof.
  repeat (split; [reflexivity|]).
  exact (hover_without_selection loaded_widget 0 (geoJson sample_geometry defaultStyle)
           eq_refl eq_refl eq_refl).
Defined.

(** *** Panel visibility *)

Lemma Qgtb_spec a b : Qgtb a b = true ↔ (b < a)%Q.
Proof.
  unfold Qgtb. rewrite negb_true_iff. split.
  - intros H. apply Qnot_le_lt. intros Hle. apply Qle_bool_iff in Hle. congruence.
  - intros H. destruct (Qle_bool a b) eqn:E; [|done].
    apply Qle_bool_iff in E. exfalso. by apply (Qlt_not_le b a).
Qed.

(** C6: after the observer delivers an entry, the button panel is in the
    render output if and only if the entry's intersection ratio is strictly
    greater than 0.5; for every delivered ratio at or below 0.5 the render
    output has no panel at all. *)
Theorem panel_iff_ratio_above_half (entry : IntersectionObserverEntry) (w : Widget) :
  consistent_entry entry →
  (panel (render (onIntersection entry w)) = Some buttons ↔
     (0.5 < intersectionRatio entry)%Q) ∧
  (is_Some (panel (render (onIntersection entry w))) ↔
     (0.5 < intersectionRatio entry)%Q) ∧
  ((intersectionRatio entry <= 0.5)%Q → panel (render (onIntersection entry w)) = None).
Proof.
  intros Hc. unfold render, onIntersection; simpl.
  destruct (Qgtb (intersectionRatio entry) 0.5) eqn:Hgt.
  - apply Qgtb_spec in Hgt. rewrite (Hc Hgt); simpl. repeat split; try done.
    intros Hle. exfalso. by apply (Qlt_not_le _ _ Hgt).
  - assert (Hn : ¬ (0.5 < intersectionRatio entry)%Q).
    { intros Hlt. apply Qgtb_spec in Hlt. congruence. }
    rewrite andb_false_r. repeat split; done.
Qed.

Lemma panel_iff_ratio_above_half_witness :
  consistent_entry {| isIntersecting := true; intersectionRatio := 0.75 |} ∧
  (panel (render (onIntersection {| isIntersecting := true; intersectionRatio := 0.75 |}
                    initial)) = Some buttons ↔
     (0.5 < intersectionRatio {| isIntersecting := true; intersectionRatio := 0.75 |})%Q) ∧
  (is_Some (panel (render (onIntersection
                             {| isIntersecting := true; intersectionRatio := 0.75 |}
                             initial))) ↔
     (0.5 < intersectionRatio {| isIntersecting := true; intersectionRatio := 0.75 |})%Q) ∧
  ((intersectionRatio {| isIntersecting := true; intersectionRatio := 0.75 |} <= 0.5)%Q →
   panel (render (onIntersection {| isIntersecting := true; intersectionRatio := 0.75 |}
                    initial)) = None).
Proof.
  split; [intros _; reflexivity|].
  apply (panel_iff_ratio_above_half {| isIntersecting := true; intersectionRatio := 0.75 |}
           initial).
  intros _; reflexivity.
Defined.

Example panel_absent_at_exactly_half :
  panel (render (onIntersection {| isIntersecting := true; intersectionRatio := 0.5 |}
                   loaded_widget)) = None.
Proof. reflexivity. Qed.

Lemma handleLocationClick_visibility location w :
  isMapVisible (handleLocationClick location w) = isMapVisible w.
Proof. unfold handleLocationClick. by repeat case_match. Qed.

Lemma onFetchSettled_visibility t r w :
  isMapVisible (onFetchSettled t r w) = isMapVisible w.
Proof.
  unfold onFetchSettled, loadGeoJSON_response, loadGeoJSON_catch. by repeat (case_match; simplify_eq; simpl).
Qed.

Lemma onJsonSettled_visibility addTo t r w :
  isMapVisible (onJsonSettled addTo t r w) = isMapVisible w.
Proof.
  unfold onJsonSettled, loadGeoJSON_body, loadGeoJSON_catch. by repeat (case_match; simplify_eq; simpl).
Qed.

Lemma step_visibility addTo w e :
  is_intersection e = false → isMapVisible (step addTo w e) = isMapVisible w.
Proof.
  destruct e; simpl; try done; intros _.
  - unfold observerEffect, initEffect. by repeat (case_match; simpl).
  - unfold observerCleanup, initCleanup. by repeat (case_match; simpl).
  - apply onFetchSettled_visibility.
  - apply onJsonSettled_visibility.
  - destruct (isMapVisible w) eqn:Hv; [|done].
    by rewrite handleLocationClick_visibility.
  - unfold mouseover. by repeat (case_match; simpl).
  - unfold mouseout. by repeat (case_match; simpl).
Qed.

Lemma run_visibility addTo es : ∀ w,
  Forall (λ e, is_intersection e = false) es →
  isMapVisible (run addTo es w) = isMapVisible w.
Proof.
  induction es as [|e es IH]; intros w Hes; [done|].
  apply Forall_cons in Hes as [He Hes]. unfold run in *; simpl.
  by rewrite (IH _ Hes), step_visibility.
Qed.

(** C10: the visibility flag starts as true, and as long as the observer
    has delivered no entry it stays true through every other event, so the
    button panel is rendered from the first render on, whatever part of the
    container is actually visible. *)
Theorem panel_rendered_before_first_intersection
    (addTo : GeoJSON → Completion) (es : list Event) :
  Forall (λ e, is_intersection e = false) es →
  isMapVisible initial = true ∧
  isMapVisible (run addTo es initial) = true ∧
  panel (render (run addTo es initial)) = Some buttons.
Proof.
  intros Hes. pose proof (run_visibility addTo es initial Hes) as Hv.
  unfold render. rewrite Hv. by repeat split.
Qed.

Lemma panel_rendered_before_first_intersection_witness :
  Forall (λ e, is_intersection e = false)
    [Mount true; FetchSettled 0 (Response true); MouseOver 0 0; Click preset_zunyi] ∧
  isMapVisible initial = true ∧
  isMapVisible (run (λ _, Normal)
    [Mount true; FetchSettled 0 (Response true); MouseOver 0 0; Click preset_zunyi]
    initial) = true ∧
  panel (render (run (λ _, Normal)
    [Mount true; FetchSettled 0 (Response true); MouseOver 0 0; Click preset_zunyi]
    initial)) = Some buttons.
Proof.
  assert (H : Forall (λ e, is_intersection e = false)
    [Mount true; FetchSettled 0 (Response true); MouseOver 0 0; Click preset_zunyi])
    by (repeat constructor).
  split; [exact H|].
  exact (panel_rendered_before_first_intersection (λ _, Normal) _ H).
Defined.

(** *** Failure of the geometry load *)






(** *** Completion of the load after unmount *)

Lemma removed_call_remove m : removed (call remove m) = true.
Proof.
  unfold removed, call; simpl. rewrite existsb_app; simpl. apply orb_true_r.
Qed.

Lemma removed_call c m : removed m = true → removed (call c m) = true.
Proof.
  unfold removed, call; simpl. intros H. by rewrite existsb_app, H.
Qed.

(** The cleanup tears the map of its effect run down and clears [mapRef];
    it leaves [geojsonRef] and the pending tasks alone. *)
Lemma cleanup_tears_down w map m :
  cleanupMap w = Some map → maps w !! map = Some m →
  mapRef (initCleanup w) = None ∧
  maps (initCleanup w) !! map = Some (call remove m) ∧
  is_removed (initCleanup w) map = true ∧
  tasks (initCleanup w) = tasks w ∧
  geojsonRef (initCleanup w) = geojsonRef w.
Proof.
  intros Hc Hm. unfold initCleanup, is_removed. rewrite Hc; simpl.
  rewrite list_lookup_alter_eq, Hm; simpl.
  repeat split. apply removed_call_remove.
Qed.

Lemma run_snoc addTo es e w : run addTo (es ++ [e]) w = step addTo (run addTo es w) e.
Proof. unfold run. by rewrite foldl_app. Qed.

Lemma step_mapRef_none addTo w e :
  is_mount e = false → mapRef w = None → mapRef (step addTo w e) = None.
Proof.
  intros He Hm. destruct e as [c| |t r|t r|location|g i|g i|entry]; simpl in *;
    try done.
  - unfold initCleanup. by repeat (case_match; simpl).
  - unfold onFetchSettled, loadGeoJSON_response, loadGeoJSON_catch.
    by repeat (case_match; simplify_eq; simpl).
  - unfold onJsonSettled, loadGeoJSON_body, loadGeoJSON_catch.
    by repeat (case_match; simplify_eq; simpl).
  - destruct (isMapVisible w); [|done].
    rewrite handleLocationClick_not_ready; [done|by left].
  - unfold mouseover. by repeat (case_match; simpl).
  - unfold mouseout. by repeat (case_match; simpl).
Qed.

Lemma run_mapRef_none addTo es w :
  Forall (λ e, is_mount e = false) es → mapRef w = None →
  mapRef (run addTo es w) = None.
Proof.
  intros Hes Hm. induction es as [|e es IH] using rev_ind; [done|].
  apply Forall_app in Hes as [Hes He]. apply Forall_cons in He as [He _].
  rewrite run_snoc. apply step_mapRef_none; [done|]. by apply IH.
Qed.

(** C5, as the code has it: when the load completes after the map of its
    effect run has been removed, the completion handler makes no validity
    check.  It builds the overlay and issues [addTo] on the removed map
    instance.  If that call returns, the overlay is stored in [geojsonRef]
    and nothing is logged; if it throws, the error is caught and logged and
    [geojsonRef] is left as it was.  [mapRef] is not touched: if it is null
    (the effect has not run again), it stays null through every later event
    other than a new run of the effects, and [handleLocationClick] is a
    no-op in all those states. *)
Theorem completion_after_unmount_still_adds_overlay
    (addTo : GeoJSON → Completion) (w : Widget) (t : nat) (task : LoadTask)
    (features : list Feature) (m : Map) :
  tasks w !! t = Some task → task_phase task = AwaitingBody →
  maps w !! task_map task = Some m → removed m = true →
  maps (onJsonSettled addTo t (JsonValue (FeatureCollection features)) w) !! task_map task
    = Some (call (addLayer (overlay (length (overlays w)))) m) ∧
  overlays (onJsonSettled addTo t (JsonValue (FeatureCollection features)) w)
    = (overlays w ++ [geoJson features defaultStyle])%list ∧
  mapRef (onJsonSettled addTo t (JsonValue (FeatureCollection features)) w) = mapRef w ∧
  match addTo (geoJson features defaultStyle) with
  | Normal =>
      geojsonRef (onJsonSettled addTo t (JsonValue (FeatureCollection features)) w)
        = Some (length (overlays w)) ∧
      console (onJsonSettled addTo t (JsonValue (FeatureCollection features)) w)
        = console w
  | Thrown error =>
      geojsonRef (onJsonSettled addTo t (JsonValue (FeatureCollection features)) w)
        = geojsonRef w ∧
      console (onJsonSettled addTo t (JsonValue (FeatureCollection features)) w)
        = (console w ++ [("地图数据加载错误:", error)])%list
  end ∧
  (mapRef w = None →
   ∀ es location, Forall (λ e, is_mount e = false) es →
     mapRef (run addTo es
               (onJsonSettled addTo t (JsonValue (FeatureCollection features)) w)) = None ∧
     handleLocationClick location
       (run addTo es (onJsonSettled addTo t (JsonValue (FeatureCollection features)) w))
     = run addTo es (onJsonSettled addTo t (JsonValue (FeatureCollection features)) w)).
Proof.
  intros Ht Hp Hm Hr.
  assert (Hmaps : alter (call (addLayer (overlay (length (overlays w)))))
                    (task_map task) (maps w) !! task_map task
                  = Some (call (addLayer (overlay (length (overlays w)))) m)).
  { by rewrite list_lookup_alter_eq, Hm. }
  assert (Href : mapRef (onJsonSettled addTo t (JsonValue (FeatureCollection features)) w)
                 = mapRef w).
  { unfold onJsonSettled, loadGeoJSON_body, is_removed. rewrite Ht, Hp, Hm, Hr.
    by destruct (addTo (geoJson features defaultStyle)). }
  split; [|split; [|split; [exact Href|split]]].
  - unfold onJsonSettled, loadGeoJSON_body, is_removed. rewrite Ht, Hp, Hm, Hr.
    by destruct (addTo (geoJson features defaultStyle)).
  - unfold onJsonSettled, loadGeoJSON_body, is_removed. rewrite Ht, Hp, Hm, Hr.
    by destruct (addTo (geoJson features defaultStyle)).
  - unfold onJsonSettled, loadGeoJSON_body, is_removed. rewrite Ht, Hp, Hm, Hr.
    by destruct (addTo (geoJson features defaultStyle)).
  - intros Hnone es location Hes.
    assert (Hn : mapRef (run addTo es
                   (onJsonSettled addTo t (JsonValue (FeatureCollection features)) w))
                 = None).
    { apply run_mapRef_none; [done|]. by rewrite Href. }
    split; [done|]. apply handleLocationClick_not_ready. by left.
Qed.

Lemma completion_after_unmount_still_adds_overlay_witness :
  tasks unmounted_widget !! 0 =
    Some {| task_url := "/cn.json"; task_map := 0; task_phase := AwaitingBody |} ∧
  task_phase {| task_url := "/cn.json"; task_map := 0; task_phase := AwaitingBody |}
    = AwaitingBody ∧
  maps unmounted_widget !! 0 = Some (call remove newMap) ∧
  removed (call remove newMap) = true ∧
  maps (onJsonSettled (λ _, Thrown "TypeError") 0
          (JsonValue (FeatureCollection sample_geometry)) unmounted_widget) !! 0
    = Some (call (addLayer (overlay 0)) (call remove newMap)) ∧
  overlays (onJsonSettled (λ _, Thrown "TypeError") 0
              (JsonValue (FeatureCollection sample_geometry)) unmounted_widget)
    = [geoJson sample_geometry defaultStyle] ∧
  mapRef (onJsonSettled (λ _, Thrown "TypeError") 0
            (JsonValue (FeatureCollection sample_geometry)) unmounted_widget) = None ∧
  geojsonRef (onJsonSettled (λ _, Thrown "TypeError") 0
                (JsonValue (FeatureCollection sample_geometry)) unmounted_widget) = None ∧
  console (onJsonSettled (λ _, Thrown "TypeError") 0
             (JsonValue (FeatureCollection sample_geometry)) unmounted_widget)
    = [("地图数据加载错误:", "TypeError")] ∧
  ∀ es location, Forall (λ e, is_mount e = false) es →
    mapRef (run (λ _, Thrown "TypeError") es
              (onJsonSettled (λ _, Thrown "TypeError") 0
                 (JsonValue (FeatureCollection sample_geometry)) unmounted_widget)) = None ∧
    handleLocationClick location
      (run (λ _, Thrown "TypeError") es
         (onJsonSettled (λ _, Thrown "TypeError") 0
            (JsonValue (FeatureCollection sample_geometry)) unmounted_widget))
    = run (λ _, Thrown "TypeError") es
        (onJsonSettled (λ _, Thrown "TypeError") 0
           (JsonValue (FeatureCollection sample_geometry)) unmounted_widget).
Proof.
  do 4 (split; [reflexivity|]).
  destruct (completion_after_unmount_still_adds_overlay (λ _, Thrown "TypeError")
              unmounted_widget 0
              {| task_url := "/cn.json"; task_map := 0; task_phase := AwaitingBody |}
              sample_geometry (call remove newMap) eq_refl eq_refl eq_refl eq_refl)
    as (Hmaps & Hov & Href & [Hg Hlog] & Hlater).
  split; [exact Hmaps|]. split; [exact Hov|]. split; [exact Href|].
  split; [exact Hg|]. split; [exact Hlog|]. exact (Hlater eq_refl).
Defined.

(** C5 as stated fails: the widget unmounts while the body is being parsed,
    and when the body arrives the result is not discarded: whatever [addTo]
    does on a removed map, the handler has built the overlay and the
    removed map instance has received [addLayer] for it. *)
Lemma completion_after_unmount_not_discarded :
  is_removed unmounted_widget 0 = true ∧
  ∀ addTo,
    calls <$> maps (step addTo unmounted_widget
                      (JsonSettled 0 (JsonValue (FeatureCollection sample_geometry))))
      = [ [ setView (35.8617, 104.1954)%Q 4; addLayer (tileLayer tileUrl 18 false);
            remove; addLayer (overlay 0) ] ] ∧
    overlays (step addTo unmounted_widget
                (JsonSettled 0 (JsonValue (FeatureCollection sample_geometry))))
      = [geoJson sample_geometry defaultStyle] ∧
    step addTo unmounted_widget
      (JsonSettled 0 (JsonValue (FeatureCollection sample_geometry)))
      ≠ unmounted_widget.
Proof.
  split; [reflexivity|]. intros addTo.
  assert (H : ∀ c, (if is_removed unmounted_widget 0 then c else Normal) = c)
    by reflexivity.
  simpl. unfold onJsonSettled, loadGeoJSON_body.
  change (tasks unmounted_widget !! 0)
    with (Some {| task_url := "/cn.json"; task_map := 0; task_phase := AwaitingBody |}).
  cbn [task_phase task_map]. rewrite H.
  destruct (addTo (geoJson sample_geometry defaultStyle)) as [|error];
    (split; [reflexivity|]; split; [reflexivity|]; discriminate).
Qed.

(** *** The behaviour on the sample geometry *)

Example zunyi_on_sample :
  (styles (handleLocationClick preset_zunyi loaded_widget)) =
    [ [ highlightStyle; defaultStyle; defaultStyle; defaultStyle; highlightStyle;
        defaultStyle ] ] ∧
  (selectedLayer <$> overlays (handleLocationClick preset_zunyi loaded_widget)) = [Some 4] ∧
  (calls <$> maps (handleLocationClick preset_zunyi loaded_widget)) =
    [ [ setView (35.8617, 104.1954)%Q 4; addLayer (tileLayer tileUrl 18 false);
        addLayer (overlay 0); flyTo (27.7274, 106.9723)%Q 6 1.2%Q ] ].
Proof. repeat split. Qed.

Example china_on_sample :
  (styles (handleLocationClick preset_china loaded_widget)) =
    [ [ highlightStyle; defaultStyle; highlightStyle; defaultStyle; highlightStyle;
        defaultStyle ] ] ∧
  (selectedLayer <$> overlays (handleLocationClick preset_china loaded_widget)) = [Some 4].
Proof. repeat split. Qed.

Example global_after_china_on_sample :
  (styles (handleLocationClick preset_global selected_widget)) =
    [ [ defaultStyle; defaultStyle; defaultStyle; defaultStyle; defaultStyle;
        defaultStyle ] ] ∧
  (selectedLayer <$> overlays (handleLocationClick preset_global selected_widget)) = [None].
Proof. repeat split. Qed.

Example hover_on_sample :
  (styles (mouseover 0 1 loaded_widget)) =
    [ [ defaultStyle;
        {| fillColor := Some "transparent"; weight := Some 2%Q; opacity := Some 1%Q;
           color := Some "#666"; fillOpacity := Some 0%Q |};
        defaultStyle; defaultStyle; defaultStyle; defaultStyle ] ] ∧
  mouseout 0 1 (mouseover 0 1 loaded_widget) = loaded_widget.
Proof. repeat split. Qed.

(** ** Further properties of the handlers *)

(** *** What a selection does to the map and to the rest of the state *)

(** X1: when both refs are set, [handleLocationClick] appends exactly one
    call to the stored map, the fly-to to the location's coordinates and
    zoom with duration 1.2, whatever the location (also for the global
    one); it touches no other map and no other overlay, and leaves the
    refs, the visibility flag, the load tasks and the console alone. *)
Theorem selection_flies_to_location
    (location : ILocation) (w : Widget) (map geojson : nat) (m : Map) :
  mapRef w = Some map → geojsonRef w = Some geojson → maps w !! map = Some m →
  maps (handleLocationClick location w) !! map =
    Some {| mapOptions := mapOptions m;
            calls := calls m ++ [flyTo (coords location) (zoom location) 1.2%Q] |} ∧
  (∀ k, k ≠ map → maps (handleLocationClick location w) !! k = maps w !! k) ∧
  (∀ k, k ≠ geojson → overlays (handleLocationClick location w) !! k = overlays w !! k) ∧
  mapRef (handleLocationClick location w) = mapRef w ∧
  geojsonRef (handleLocationClick location w) = geojsonRef w ∧
  isMapVisible (handleLocationClick location w) = isMapVisible w ∧
  tasks (handleLocationClick location w) = tasks w ∧
  console (handleLocationClick location w) = console w.
Proof.
  intros Hm Hg Hmap. rewrite (handleLocationClick_ready _ _ _ _ Hm Hg); simpl.
  split; [by rewrite list_lookup_alter_eq, Hmap|].
  split; [intros k Hk; by rewrite list_lookup_alter_ne|].
  split; [intros k Hk; by rewrite list_lookup_alter_ne|].
  done.
Qed.

Lemma selection_flies_to_location_witness :
  mapRef loaded_widget = Some 0 ∧ geojsonRef loaded_widget = Some 0 ∧
  maps loaded_widget !! 0 = Some (call (addLayer (overlay 0)) newMap) ∧
  maps (handleLocationClick preset_global loaded_widget) !! 0 =
    Some {| mapOptions := mapOptions (call (addLayer (overlay 0)) newMap);
            calls := calls (call (addLayer (overlay 0)) newMap) ++
                     [flyTo (coords preset_global) (zoom preset_global) 1.2%Q] |} ∧
  (∀ k, k ≠ 0 → maps (handleLocationClick preset_global loaded_widget) !! k
                = maps loaded_widget !! k) ∧
  (∀ k, k ≠ 0 → overlays (handleLocationClick preset_global loaded_widget) !! k
                = overlays loaded_widget !! k) ∧
  mapRef (handleLocationClick preset_global loaded_widget) = mapRef loaded_widget ∧
  geojsonRef (handleLocationClick preset_global loaded_widget) = geojsonRef loaded_widget ∧
  isMapVisible (handleLocationClick preset_global loaded_widget)
    = isMapVisible loaded_widget ∧
  tasks (handleLocationClick preset_global loaded_widget) = tasks loaded_widget ∧
  console (handleLocationClick preset_global loaded_widget) = console loaded_widget.
Proof.
  do 3 (split; [reflexivity|]).
  exact (selection_flies_to_location preset_global loaded_widget 0 0
           (call (addLayer (overlay 0)) newMap) eq_refl eq_refl eq_refl).
Defined.

(** *** The back-reference *)

Lemma eachLayer_highlight_none location ls : ∀ i sel,
  (eachLayer_highlight location i ls sel).2 = None ↔
  sel = None ∧ Forall (λ layer, highlights location layer = false) ls.
Proof.
  induction ls as [|layer rest IH]; intros i sel; simpl.
  - split; [by intros ->|by intros [-> _]].
  - destruct (highlights location layer) eqn:Hh.
    + specialize (IH (S i) (Some i)).
      destruct (eachLayer_highlight location (S i) rest (Some i)) as [rest' sel']; simpl in *.
      split.
      * intros Hn. by apply IH in Hn as [[=] _].
      * intros [_ HF]. apply Forall_cons in HF as [HF _]. congruence.
    + specialize (IH (S i) sel).
      destruct (eachLayer_highlight location (S i) rest sel) as [rest' sel']; simpl in *.
      rewrite IH, Forall_cons.
      split; [intros [? ?]|intros [? [_ ?]]]; by repeat split.
Qed.

(** The loop either keeps the back-reference it started with, and then no
    layer passed the test, or it ends on the last layer that passed. *)
Lemma eachLayer_highlight_last location ls : ∀ i sel,
  ((eachLayer_highlight location i ls sel).2 = sel ∧
   Forall (λ layer, highlights location layer = false) ls) ∨
  (∃ k layer, (eachLayer_highlight location i ls sel).2 = Some (i + k) ∧
     ls !! k = Some layer ∧ highlights location layer = true ∧
     ∀ k' layer', k < k' → ls !! k' = Some layer' → highlights location layer' = false).
Proof.
  induction ls as [|layer rest IH]; intros i sel; simpl; [by left|].
  destruct (highlights location layer) eqn:Hh.
  - specialize (IH (S i) (Some i)). right.
    destruct (eachLayer_highlight location (S i) rest (Some i)) as [rest' sel']; simpl in *.
    destruct IH as [[-> HF]|(k & l & -> & Hl & Hhl & Hlast)].
    + exists 0, layer. rewrite Nat.add_0_r. repeat split; try done.
      intros [|k'] l' Hk' Hl'; [lia|]. simpl in Hl'.
      rewrite Forall_forall in HF. apply HF, list_elem_of_lookup. by exists k'.
    + exists (S k), l. repeat split; try done; [f_equal; lia|].
      intros [|k'] l' Hk' Hl'; [lia|]. simpl in Hl'. apply (Hlast k'); [lia|done].
  - specialize (IH (S i) sel).
    destruct (eachLayer_highlight location (S i) rest sel) as [rest' sel']; simpl in *.
    destruct IH as [[-> HF]|(k & l & -> & Hl & Hhl & Hlast)].
    + left. split; [done|]. by apply Forall_cons.
    + right. exists (S k), l. repeat split; try done; [f_equal; lia|].
      intros [|k'] l' Hk' Hl'; [lia|]. simpl in Hl'. apply (Hlast k'); [lia|done].
Qed.

Lemma highlights_feature location layer layer' :
  feature layer = feature layer' → highlights location layer = highlights location layer'.
Proof. unfold highlights, layer_adcode. by intros ->. Qed.

Lemma select_on_overlay_last location geojson j :
  selectedLayer (select_on_overlay location geojson) = Some j →
  ∀ k layer, j < k → layers geojson !! k = Some layer → highlights location layer = false.
Proof.
  unfold select_on_overlay. case_bool_decide as Hid; simpl; [|done].
  pose proof (eachLayer_highlight_last location
    (Path_setStyle defaultStyle <$> layers geojson) 0 None) as H.
  destruct (eachLayer_highlight location 0 _ None) as [ls sel]; simpl in *.
  intros ->. destruct H as [[[=] _]|(k0 & l0 & [= ->] & _ & _ & Hlast)].
  intros k layer Hk Hl.
  rewrite <- (highlights_setStyle location defaultStyle layer).
  apply (Hlast k); [done|]. by rewrite list_lookup_fmap, Hl.
Qed.

Lemma select_on_overlay_unselected location geojson :
  selectedLayer (select_on_overlay location geojson) = None ↔
  id location = global ∨ Forall (λ layer, highlights location layer = false) (layers geojson).
Proof.
  unfold select_on_overlay. case_bool_decide as Hid; simpl.
  - pose proof (eachLayer_highlight_none location
      (Path_setStyle defaultStyle <$> layers geojson) 0 None) as H.
    destruct (eachLayer_highlight location 0 _ None) as [ls sel]; simpl in *.
    rewrite H, Forall_fmap. split.
    + intros [_ HF]. right. by apply (Forall_impl _ _ _ HF).
    + intros [?|HF]; [done|]. split; [done|]. by apply (Forall_impl _ _ _ HF).
  - split; [|done]. intros _. left. by destruct (decide (id location = global)).
Qed.

(** X2: every match overwrites the back-reference, so after
    [handleLocationClick] the back-reference is the last layer, in iteration
    order, that was given the selected style; it is null exactly when the
    location is the global one or no layer was given the selected style. *)
Theorem back_reference_is_last_highlighted
    (location : ILocation) (w : Widget) (map geojson : nat) (ov : GeoJSON) :
  mapRef w = Some map → geojsonRef w = Some geojson →
  overlays w !! geojson = Some ov →
  ∃ ov', overlays (handleLocationClick location w) !! geojson = Some ov' ∧
    (∀ j, selectedLayer ov' = Some j →
       id location ≠ global ∧
       (∃ layer, layers ov !! j = Some layer ∧ highlights location layer = true) ∧
       (∃ layer', layers ov' !! j = Some layer' ∧ options layer' = highlightStyle) ∧
       ∀ k layer', j < k → layers ov' !! k = Some layer' → options layer' = defaultStyle) ∧
    (selectedLayer ov' = None ↔
       id location = global ∨
       Forall (λ layer, highlights location layer = false) (layers ov)).
Proof.
  intros Hm Hg Hov. exists (select_on_overlay location ov).
  split; [by apply handleLocationClick_overlay with map|]. split.
  - intros j Hj.
    destruct (select_on_overlay_selected _ _ _ Hj) as (Hid & layer & Hl & Hh).
    split; [done|]. split; [by exists layer|]. split.
    + eexists. rewrite (select_on_overlay_lookup _ _ _ _ Hl). split; [done|]; simpl.
      unfold style_after. by rewrite Hh, bool_decide_eq_true_2.
    + intros k layer' Hk. rewrite select_on_overlay_layers, list_lookup_fmap.
      destruct (layers ov !! k) as [l|] eqn:Hlk; [|done]. intros [= <-]; simpl.
      unfold style_after.
      by rewrite (select_on_overlay_last _ _ _ Hj k l Hk Hlk), andb_false_r.
  - apply select_on_overlay_unselected.
Qed.

Lemma back_reference_is_last_highlighted_witness :
  mapRef loaded_widget = Some 0 ∧ geojsonRef loaded_widget = Some 0 ∧
  overlays loaded_widget !! 0 = Some (geoJson sample_geometry defaultStyle) ∧
  ∃ ov', overlays (handleLocationClick preset_zunyi loaded_widget) !! 0 = Some ov' ∧
    (∀ j, selectedLayer ov' = Some j →
       id preset_zunyi ≠ global ∧
       (∃ layer, layers (geoJson sample_geometry defaultStyle) !! j = Some layer ∧
                 highlights preset_zunyi layer = true) ∧
       (∃ layer', layers ov' !! j = Some layer' ∧ options layer' = highlightStyle) ∧
       ∀ k layer', j < k → layers ov' !! k = Some layer' → options layer' = defaultStyle) ∧
    (selectedLayer ov' = None ↔
       id preset_zunyi = global ∨
       Forall (λ layer, highlights preset_zunyi layer = false)
         (layers (geoJson sample_geometry defaultStyle))).
Proof.
  do 3 (split; [reflexivity|]).
  exact (back_reference_is_last_highlighted preset_zunyi loaded_widget 0 0
           (geoJson sample_geometry defaultStyle) eq_refl eq_refl eq_refl).
Defined.

(** *** When hover is suppressed after a selection *)

Lemma existsb_highlights location (ls : list Layer) :
  existsb (highlights location) ls = false ↔
  Forall (λ layer, highlights location layer = false) ls.
Proof.
  induction ls as [|layer rest IH]; simpl; [by split|].
  rewrite orb_false_iff, Forall_cons, IH. done.
Qed.

(** X3: after [handleLocationClick] the pointer handlers are suppressed
    exactly when the location is not the global one and at least one layer
    passed the callback's test.  Otherwise (global location, or no feature
    carrying the area code) every layer is left in the default style and
    pointer-enter restyles layers again. *)
Theorem hover_suppressed_iff_some_layer_highlighted
    (location : ILocation) (w : Widget) (map geojson : nat) (ov : GeoJSON) :
  mapRef w = Some map → geojsonRef w = Some geojson →
  overlays w !! geojson = Some ov →
  hasSelection (handleLocationClick location w) =
    bool_decide (id location ≠ global) && existsb (highlights location) (layers ov) ∧
  (bool_decide (id location ≠ global) && existsb (highlights location) (layers ov) = false →
   ∃ ov', overlays (handleLocationClick location w) !! geojson = Some ov' ∧
     selectedLayer ov' = None ∧
     (∀ i layer, layers ov !! i = Some layer →
        layers ov' !! i = Some (restyled layer defaultStyle)) ∧
     ∀ i layer, layers ov !! i = Some layer →
       ∃ ov'', overlays (mouseover geojson i (handleLocationClick location w)) !! geojson
                 = Some ov'' ∧
               layers ov'' !! i = Some (restyled layer hoveredStyle)).
Proof.
  intros Hm Hg Hov.
  pose proof (handleLocationClick_overlay location _ _ _ _ Hm Hg Hov) as Hov'.
  assert (Hg' : geojsonRef (handleLocationClick location w) = Some geojson).
  { by rewrite (handleLocationClick_ready _ _ _ _ Hm Hg). }
  assert (Hsel : hasSelection (handleLocationClick location w) =
            bool_decide (id location ≠ global) &&
            existsb (highlights location) (layers ov)).
  { unfold hasSelection. rewrite Hg', Hov'.
    destruct (selectedLayer (select_on_overlay location ov)) as [j|] eqn:Hj.
    - rewrite bool_decide_eq_true_2 by done.
      destruct (select_on_overlay_selected _ _ _ Hj) as (Hid & layer & Hl & Hh).
      rewrite bool_decide_eq_true_2 by done. symmetry; simpl.
      apply existsb_exists. exists layer. split; [|done].
      apply list_elem_of_In, list_elem_of_lookup. by exists j.
    - rewrite bool_decide_eq_false_2 by (by intros [? ?]).
      apply select_on_overlay_unselected in Hj as [Hid|HF]; symmetry.
      + rewrite bool_decide_eq_false_2; [done|]. by intros ?.
      + apply existsb_highlights in HF. rewrite HF. apply andb_false_r. }
  split; [done|]. intros Hnone.
  exists (select_on_overlay location ov).
  assert (Hs : selectedLayer (select_on_overlay location ov) = None).
  { apply select_on_overlay_unselected.
    apply andb_false_iff in Hnone as [Hid|HF].
    - left. apply bool_decide_eq_false in Hid.
      by destruct (decide (id location = global)).
    - right. by apply existsb_highlights. }
  assert (Hdef : ∀ i layer, layers ov !! i = Some layer →
            layers (select_on_overlay location ov) !! i = Some (restyled layer defaultStyle)).
  { intros i layer Hl. rewrite (select_on_overlay_lookup _ _ _ _ Hl).
    unfold style_after, restyled. do 2 f_equal.
    apply andb_false_iff in Hnone as [->|HF]; [done|].
    apply existsb_highlights in HF. rewrite Forall_forall in HF.
    rewrite HF, andb_false_r; [done|]. apply list_elem_of_lookup. by exists i. }
  do 3 (split; [done|]).
  intros i layer Hl. unfold mouseover. rewrite Hsel, Hnone; simpl.
  eexists. rewrite list_lookup_alter_eq, Hov'; simpl. split; [done|]; simpl.
  by rewrite list_lookup_alter_eq, (Hdef _ _ Hl).
Qed.

Lemma hover_suppressed_iff_some_layer_highlighted_witness :
  mapRef selected_widget = Some 0 ∧ geojsonRef selected_widget = Some 0 ∧
  overlays selected_widget !! 0 =
    Some (select_on_overlay preset_china (geoJson sample_geometry defaultStyle)) ∧
  hasSelection (handleLocationClick preset_global selected_widget) =
    bool_decide (id preset_global ≠ global) &&
    existsb (highlights preset_global)
      (layers (select_on_overlay preset_china (geoJson sample_geometry defaultStyle))) ∧
  (bool_decide (id preset_global ≠ global) &&
   existsb (highlights preset_global)
     (layers (select_on_overlay preset_china (geoJson sample_geometry defaultStyle)))
   = false →
   ∃ ov', overlays (handleLocationClick preset_global selected_widget) !! 0 = Some ov' ∧
     selectedLayer ov' = None ∧
     (∀ i layer,
        layers (select_on_overlay preset_china (geoJson sample_geometry defaultStyle)) !! i
          = Some layer →
        layers ov' !! i = Some (restyled layer defaultStyle)) ∧
     ∀ i layer,
       layers (select_on_overlay preset_china (geoJson sample_geometry defaultStyle)) !! i
         = Some layer →
       ∃ ov'', overlays (mouseover 0 i (handleLocationClick preset_global selected_widget))
                 !! 0 = Some ov'' ∧
               layers ov'' !! i = Some (restyled layer hoveredStyle)).
Proof.
  do 3 (split; [reflexivity|]).
  exact (hover_suppressed_iff_some_layer_highlighted preset_global selected_widget 0 0
           (select_on_overlay preset_china (geoJson sample_geometry defaultStyle))
           eq_refl eq_refl eq_refl).
Defined.

(** *** Selections do not depend on what came before *)

Lemma reset_by_features (ls : list Layer) :
  Path_setStyle defaultStyle <$> ls =
  (λ f, {| feature := f; options := defaultStyle |}) <$> (feature <$> ls).
Proof.
  rewrite <- list_fmap_compose. apply list_fmap_ext.
  intros _ layer _. apply setStyle_default.
Qed.

Lemma select_on_overlay_by_features location ov1 ov2 :
  feature <$> layers ov1 = feature <$> layers ov2 →
  select_on_overlay location ov1 = select_on_overlay location ov2.
Proof.
  intros H. unfold select_on_overlay, GeoJSON_setStyle; simpl.
  by rewrite !reset_by_features, H.
Qed.

Lemma select_on_overlay_features location ov :
  feature <$> layers (select_on_overlay location ov) = feature <$> layers ov.
Proof.
  rewrite select_on_overlay_layers, <- list_fmap_compose.
  by apply list_fmap_ext.
Qed.

Lemma alter_layer_features f i ov :
  (∀ layer, feature (f layer) = feature layer) →
  feature <$> layers (alter_layer f i ov) = feature <$> layers ov.
Proof.
  intros Hf. unfold alter_layer; simpl. apply list_eq. intros k.
  rewrite !list_lookup_fmap. destruct (decide (i = k)) as [->|Hne].
  - rewrite list_lookup_alter_eq. destruct (layers ov !! k); simpl; by rewrite ?Hf.
  - by rewrite list_lookup_alter_ne.
Qed.

Lemma setStyle_features style ov :
  feature <$> layers (GeoJSON_setStyle style ov) = feature <$> layers ov.
Proof.
  unfold GeoJSON_setStyle; simpl. rewrite <- list_fmap_compose.
  by apply list_fmap_ext.
Qed.

(** X4: the overlay a selection leaves behind depends on the loaded
    features and on the location only, not on earlier selections or hovers:
    selecting [second] after [first], or after a pointer-enter or
    pointer-leave on the stored overlay, gives the same overlays as
    selecting [second] directly. *)
Theorem selection_forgets_history
    (first second : ILocation) (w : Widget) (map geojson : nat) :
  mapRef w = Some map → geojsonRef w = Some geojson →
  overlays (handleLocationClick second (handleLocationClick first w))
    = overlays (handleLocationClick second w) ∧
  (∀ i, overlays (handleLocationClick second (mouseover geojson i w))
          = overlays (handleLocationClick second w)) ∧
  (∀ g i, overlays (handleLocationClick second (mouseout g i w))
          = overlays (handleLocationClick second w)).
Proof.
  intros Hm Hg. split; [|split].
  - rewrite (handleLocationClick_ready second _ map geojson), !(handleLocationClick_ready _ w map geojson)
      by (by rewrite ?(handleLocationClick_ready _ w map geojson)).
    simpl. rewrite list_alter_alter_eq. apply list_alter_ext; [|done].
    intros ov _; simpl. apply select_on_overlay_by_features, select_on_overlay_features.
  - intros i. unfold mouseover. destruct (negb (hasSelection w)); [|done].
    rewrite !(handleLocationClick_ready second _ map geojson) by done.
    simpl. rewrite list_alter_alter_eq. apply list_alter_ext; [|done].
    intros ov _; simpl. by apply select_on_overlay_by_features, alter_layer_features.
  - intros g i. unfold mouseout. destruct (negb (hasSelection w)); [|done].
    rewrite Hg.
    rewrite !(handleLocationClick_ready second _ map geojson) by done.
    simpl. rewrite list_alter_alter_eq. apply list_alter_ext; [|done].
    intros ov _; simpl. apply select_on_overlay_by_features, setStyle_features.
Qed.

Lemma selection_forgets_history_witness :
  mapRef loaded_widget = Some 0 ∧ geojsonRef loaded_widget = Some 0 ∧
  overlays (handleLocationClick preset_zunyi (handleLocationClick preset_china loaded_widget))
    = overlays (handleLocationClick preset_zunyi loaded_widget) ∧
  (∀ i, overlays (handleLocationClick preset_zunyi (mouseover 0 i loaded_widget))
          = overlays (handleLocationClick preset_zunyi loaded_widget)) ∧
  (∀ g i, overlays (handleLocationClick preset_zunyi (mouseout g i loaded_widget))
          = overlays (handleLocationClick preset_zunyi loaded_widget)).
Proof.
  do 2 (split; [reflexivity|]).
  exact (selection_forgets_history preset_china preset_zunyi loaded_widget 0 0
           eq_refl eq_refl).
Defined.

(** *** Hovering and leaving *)

(** X5: on an overlay without selection whose layers are all in the default
    style, pointer-enter on a layer followed by pointer-leave from any layer
    brings the whole widget back to the state before the hover. *)
Theorem hover_then_leave_restores (w : Widget) (r : nat) (ov : GeoJSON) :
  geojsonRef w = Some r → overlays w !! r = Some ov → selectedLayer ov = None →
  Forall (λ layer, options layer = defaultStyle) (layers ov) →
  ∀ i g j, mouseout g j (mouseover r i w) = w.
Proof.
  intros Hr Hov Hs Hdef i g j.
  pose proof (hasSelection_idle _ _ _ Hr Hov Hs) as Hsel.
  assert (Hsel' : hasSelection (mouseover r i w) = false).
  { apply hasSelection_idle with r (alter_layer (Path_setStyle hoverStyle) i ov).
    - unfold mouseover. by rewrite Hsel.
    - unfold mouseover. rewrite Hsel; simpl. by rewrite list_lookup_alter_eq, Hov.
    - done. }
  unfold mouseout. rewrite Hsel'; simpl.
  unfold mouseover. rewrite Hsel; simpl. rewrite Hr.
  destruct w as [ms os mr gr v ts cm ob co]; unfold with_overlays; simpl in *.
  f_equal. rewrite list_alter_alter_eq.
  rewrite <- (list_alter_id (λ x, x) os r) at 2 by done.
  apply list_alter_ext; [|done]. intros x Hx. rewrite Hov in Hx. injection Hx as <-.
  destruct ov as [ls sel]; unfold GeoJSON_setStyle, alter_layer; simpl in *. f_equal.
  apply list_eq. intros k. rewrite list_lookup_fmap.
  destruct (ls !! k) as [layer|] eqn:Hk.
  - assert (Ho : options layer = defaultStyle).
    { rewrite Forall_forall in Hdef. apply Hdef, list_elem_of_lookup. by exists k. }
    destruct (decide (i = k)) as [->|Hne].
    + rewrite list_lookup_alter_eq, Hk; simpl. rewrite setStyle_default; simpl.
      destruct layer; simpl in *. by subst.
    + rewrite list_lookup_alter_ne, Hk by done; simpl. rewrite setStyle_default.
      destruct layer; simpl in *. by subst.
  - destruct (decide (i = k)) as [->|Hne].
    + by rewrite list_lookup_alter_eq, Hk.
    + by rewrite list_lookup_alter_ne, Hk.
Qed.

Lemma hover_then_leave_restores_witness :
  geojsonRef loaded_widget = Some 0 ∧
  overlays loaded_widget !! 0 = Some (geoJson sample_geometry defaultStyle) ∧
  selectedLayer (geoJson sample_geometry defaultStyle) = None ∧
  Forall (λ layer, options layer = defaultStyle)
    (layers (geoJson sample_geometry defaultStyle)) ∧
  ∀ i g j, mouseout g j (mouseover 0 i loaded_widget) = loaded_widget.
Proof.
  assert (HF : Forall (λ layer, options layer = defaultStyle)
                 (layers (geoJson sample_geometry defaultStyle)))
    by (repeat constructor).
  do 3 (split; [reflexivity|]). split; [exact HF|].
  exact (hover_then_leave_restores loaded_widget 0 (geoJson sample_geometry defaultStyle)
           eq_refl eq_refl eq_refl HF).
Defined.

(** *** Hover and selection styles do not mix *)

Lemma geoJson_consistent features : overlay_consistent (geoJson features defaultStyle).
Proof.
  unfold overlay_consistent, geoJson; simpl. apply Forall_fmap, Forall_true.
  intros f; simpl. left. apply (setOptions_full _ _ defaultStyle_full).
Qed.

Lemma select_on_overlay_consistent location ov :
  overlay_consistent (select_on_overlay location ov).
Proof.
  unfold overlay_consistent.
  destruct (selectedLayer (select_on_overlay location ov)) as [j|] eqn:Hj.
  - rewrite select_on_overlay_layers. apply Forall_fmap, Forall_true.
    intros layer; simpl. unfold style_after. case_match; [by right|by left].
  - apply select_on_overlay_unselected in Hj.
    rewrite select_on_overlay_layers. apply Forall_fmap, Forall_forall.
    intros layer Hl; simpl. left. unfold style_after.
    destruct Hj as [Hid|HF].
    + rewrite bool_decide_eq_false_2; [done|]. by intros ?.
    + rewrite Forall_forall in HF. by rewrite (HF _ Hl), andb_false_r.
Qed.

Lemma hover_consistent i ov :
  selectedLayer ov = None → overlay_consistent ov →
  overlay_consistent (alter_layer (Path_setStyle hoverStyle) i ov).
Proof.
  unfold overlay_consistent, alter_layer; simpl. intros ->. intros HF.
  apply Forall_alter; [done|]. intros layer _ [Ho|Ho]; right; simpl; by rewrite Ho.
Qed.

Lemma leave_consistent ov :
  selectedLayer ov = None → overlay_consistent (GeoJSON_setStyle defaultStyle ov).
Proof.
  unfold overlay_consistent, GeoJSON_setStyle; simpl. intros ->.
  apply Forall_fmap, Forall_true. intros layer; simpl. left.
  apply (setOptions_full _ _ defaultStyle_full).
Qed.

Lemma hasSelection_false w r ov :
  geojsonRef w = Some r → overlays w !! r = Some ov → hasSelection w = false →
  selectedLayer ov = None.
Proof.
  unfold hasSelection. intros -> ->. intros H. apply bool_decide_eq_false in H.
  destruct (selectedLayer ov); [|done]. by destruct H.
Qed.

(** X6: the overlay held by [geojsonRef] never mixes hover and selection:
    if it is consistent (with a back-reference every layer is default or
    selected, without one every layer is default or hovered), it is so
    again after any event, provided pointer-enter events are on layers of
    that overlay.  A freshly loaded overlay is consistent. *)
Theorem stored_overlay_stays_consistent
    (addTo : GeoJSON → Completion) (w : Widget) (e : Event) :
  stored_consistent w → hovers_stored w e →
  stored_consistent (step addTo w e) ∧
  ∀ features, overlay_consistent (geoJson features defaultStyle).
Proof.
  intros Hc Hh. split; [|apply geoJson_consistent].
  unfold stored_consistent in *.
  destruct e as [c| |t r|t r|location|g i|g i|entry]; simpl.
  - unfold observerEffect, initEffect, loadGeoJSON.
    repeat (case_match; simpl); apply Hc.
  - unfold observerCleanup, initCleanup. repeat (case_match; simpl); apply Hc.
  - unfold onFetchSettled, loadGeoJSON_response, loadGeoJSON_catch.
    repeat (case_match; simplify_eq; simpl); apply Hc.
  - unfold onJsonSettled. destruct (tasks w !! t) as [task|]; [|apply Hc].
    destruct (task_phase task); try apply Hc.
    unfold loadGeoJSON_body, loadGeoJSON_catch.
    destruct r as [reason|[|features]]; simpl; try apply Hc.
    destruct (if is_removed w (task_map task) then addTo (geoJson features defaultStyle)
              else Normal); simpl.
    + intros r ov [= <-]. rewrite lookup_app_r, Nat.sub_diag by done; simpl.
      intros [= <-]. apply geoJson_consistent.
    + intros r ov Hr Hov.
      apply lookup_app_Some in Hov as [?|[Hle Hov]]; [by apply (Hc r ov Hr)|].
      destruct (r - length (overlays w)) as [|n] eqn:Hn; simpl in Hov; [|done].
      injection Hov as <-. apply geoJson_consistent.
  - destruct (isMapVisible w); [|apply Hc].
    unfold handleLocationClick.
    destruct (mapRef w) as [map|] eqn:Hm; [|apply Hc].
    destruct (geojsonRef w) as [geojson|] eqn:Hg; [|intros r ov Hr; congruence]; simpl.
    rewrite Hg. intros r ov [= <-]. rewrite list_lookup_alter_eq.
    destruct (overlays w !! geojson) as [ov0|]; [|done]; simpl.
    intros [= <-]. apply select_on_overlay_consistent.
  - pose proof (Hh g i eq_refl) as Hg. unfold mouseover.
    destruct (hasSelection w) eqn:Hsel; simpl; [apply Hc|].
    intros r ov Hr. rewrite Hg in Hr. injection Hr as <-.
    rewrite list_lookup_alter_eq.
    destruct (overlays w !! g) as [ov0|] eqn:Hov; [|done]; simpl.
    intros [= <-]. apply hover_consistent; [|by apply (Hc g)].
    by apply (hasSelection_false w g).
  - unfold mouseout. destruct (hasSelection w) eqn:Hsel; simpl; [apply Hc|].
    destruct (geojsonRef w) as [r0|] eqn:Hg; [|intros r ov Hr; congruence]; simpl.
    rewrite Hg. intros r ov [= <-]. rewrite list_lookup_alter_eq.
    destruct (overlays w !! r0) as [ov0|] eqn:Hov; [|done]; simpl.
    intros [= <-]. apply leave_consistent. by apply (hasSelection_false w r0).
  - simpl. apply Hc.
Qed.


Lemma loaded_widget_consistent : stored_consistent loaded_widget.
Proof.
  intros r ov Hr Hov.
  change (geojsonRef loaded_widget) with (Some 0) in Hr. injection Hr as <-.
  change (overlays loaded_widget !! 0) with (Some (geoJson sample_geometry defaultStyle)) in Hov.
  injection Hov as <-. apply geoJson_consistent.
Defined.

Lemma stored_overlay_stays_consistent_witness :
  stored_consistent loaded_widget ∧ hovers_stored loaded_widget (MouseOver 0 1) ∧
  stored_consistent (step (λ _, Normal) loaded_widget (MouseOver 0 1)) ∧
  ∀ features, overlay_consistent (geoJson features defaultStyle).
Proof.
  assert (Hh : hovers_stored loaded_widget (MouseOver 0 1)).
  { intros g i Hgi. injection Hgi as <- <-. reflexivity. }
  split; [exact loaded_widget_consistent|]. split; [exact Hh|].
  exact (stored_overlay_stays_consistent (λ _, Normal) loaded_widget (MouseOver 0 1)
           loaded_widget_consistent Hh).
Defined.

(** *** Completion of the load on a live map *)

Lemma removed_call_other c m : is_remove c = false → removed (call c m) = removed m.
Proof.
  unfold removed, call; simpl. intros Hc. rewrite existsb_app; simpl.
  by rewrite Hc, !orb_false_r.
Qed.

(** X7: when the body of the response arrives for a load whose map has not
    been removed, the handler builds an overlay with one layer per feature,
    in document order, each carrying its feature and the default style and
    no back-reference; it adds the overlay to that map, stores it in
    [geojsonRef], logs nothing and ends the task.  Hover is enabled on the
    stored overlay. *)
Theorem load_success_builds_overlay
    (addTo : GeoJSON → Completion) (w : Widget) (t : nat) (task : LoadTask)
    (features : list Feature) (m : Map) :
  tasks w !! t = Some task → task_phase task = AwaitingBody →
  maps w !! task_map task = Some m → removed m = false →
  ∃ ov,
    geojsonRef (onJsonSettled addTo t (JsonValue (FeatureCollection features)) w)
      = Some (length (overlays w)) ∧
    overlays (onJsonSettled addTo t (JsonValue (FeatureCollection features)) w)
      = (overlays w ++ [ov])%list ∧
    feature <$> layers ov = features ∧
    Forall (λ layer, options layer = defaultStyle) (layers ov) ∧
    selectedLayer ov = None ∧
    hasSelection (onJsonSettled addTo t (JsonValue (FeatureCollection features)) w)
      = false ∧
    maps (onJsonSettled addTo t (JsonValue (FeatureCollection features)) w)
        !! task_map task
      = Some (call (addLayer (overlay (length (overlays w)))) m) ∧
    console (onJsonSettled addTo t (JsonValue (FeatureCollection features)) w)
      = console w ∧
    task_phase <$> tasks (onJsonSettled addTo t (JsonValue (FeatureCollection features)) w)
                     !! t = Some Settled.
Proof.
  intros Ht Hp Hm Hr. exists (geoJson features defaultStyle).
  unfold onJsonSettled, loadGeoJSON_body, is_removed. rewrite Ht, Hp, Hm, Hr; simpl.
  split; [done|]. split; [done|]. split.
  { rewrite <- list_fmap_compose. rewrite <- (list_fmap_id features) at 2.
    by apply list_fmap_ext. }
  split.
  { apply Forall_fmap, Forall_true. intros f; simpl.
    apply (setOptions_full _ _ defaultStyle_full). }
  split; [done|]. split.
  { unfold hasSelection; simpl. by rewrite lookup_app_r, Nat.sub_diag. }
  split; [by rewrite list_lookup_alter_eq, Hm|]. split; [done|].
  by rewrite list_lookup_alter_eq, Ht.
Qed.

Lemma load_success_builds_overlay_witness :
  tasks (run (λ _, Normal) [Mount true; FetchSettled 0 (Response true)] initial) !! 0
    = Some {| task_url := "/cn.json"; task_map := 0; task_phase := AwaitingBody |} ∧
  task_phase {| task_url := "/cn.json"; task_map := 0; task_phase := AwaitingBody |}
    = AwaitingBody ∧
  maps (run (λ _, Normal) [Mount true; FetchSettled 0 (Response true)] initial) !! 0
    = Some newMap ∧
  removed newMap = false ∧
  ∃ ov,
    geojsonRef (onJsonSettled (λ _, Thrown "unused") 0
                  (JsonValue (FeatureCollection sample_geometry))
                  (run (λ _, Normal) [Mount true; FetchSettled 0 (Response true)] initial))
      = Some (length (overlays
           (run (λ _, Normal) [Mount true; FetchSettled 0 (Response true)] initial))) ∧
    overlays (onJsonSettled (λ _, Thrown "unused") 0
                (JsonValue (FeatureCollection sample_geometry))
                (run (λ _, Normal) [Mount true; FetchSettled 0 (Response true)] initial))
      = (overlays (run (λ _, Normal) [Mount true; FetchSettled 0 (Response true)] initial)
           ++ [ov])%list ∧
    feature <$> layers ov = sample_geometry ∧
    Forall (λ layer, options layer = defaultStyle) (layers ov) ∧
    selectedLayer ov = None ∧
    hasSelection (onJsonSettled (λ _, Thrown "unused") 0
                    (JsonValue (FeatureCollection sample_geometry))
                    (run (λ _, Normal) [Mount true; FetchSettled 0 (Response true)] initial))
      = false ∧
    maps (onJsonSettled (λ _, Thrown "unused") 0
            (JsonValue (FeatureCollection sample_geometry))
            (run (λ _, Normal) [Mount true; FetchSettled 0 (Response true)] initial))
        !! task_map {| task_url := "/cn.json"; task_map := 0; task_phase := AwaitingBody |}
      = Some (call (addLayer (overlay (length (overlays
           (run (λ _, Normal) [Mount true; FetchSettled 0 (Response true)] initial)))))
           newMap) ∧
    console (onJsonSettled (λ _, Thrown "unused") 0
               (JsonValue (FeatureCollection sample_geometry))
               (run (λ _, Normal) [Mount true; FetchSettled 0 (Response true)] initial))
      = console (run (λ _, Normal) [Mount true; FetchSettled 0 (Response true)] initial) ∧
    task_phase <$> tasks (onJsonSettled (λ _, Thrown "unused") 0
                            (JsonValue (FeatureCollection sample_geometry))
                            (run (λ _, Normal) [Mount true; FetchSettled 0 (Response true)]
                               initial)) !! 0 = Some Settled.
Proof.
  do 4 (split; [reflexivity|]).
  exact (load_success_builds_overlay (λ _, Thrown "unused")
           (run (λ _, Normal) [Mount true; FetchSettled 0 (Response true)] initial) 0
           {| task_url := "/cn.json"; task_map := 0; task_phase := AwaitingBody |}
           sample_geometry newMap eq_refl eq_refl eq_refl eq_refl).
Defined.

(** *** Initialisation and cleanup *)

(** X8: the initialisation effect creates at most one map per mount: it
    creates nothing when the container is missing, and a run that follows a
    run with the container present creates no second map, starts no second
    load and leaves [mapRef] on the first map. *)
Theorem initialisation_runs_once (c : bool) (w : Widget) :
  maps (initEffect false w) = maps w ∧
  tasks (initEffect false w) = tasks w ∧
  mapRef (initEffect false w) = mapRef w ∧
  is_Some (mapRef (initEffect true w)) ∧
  length (maps (initEffect true w)) ≤ S (length (maps w)) ∧
  maps (initEffect c (initEffect true w)) = maps (initEffect true w) ∧
  tasks (initEffect c (initEffect true w)) = tasks (initEffect true w) ∧
  mapRef (initEffect c (initEffect true w)) = mapRef (initEffect true w).
Proof.
  assert (Hsome : is_Some (mapRef (initEffect true w))).
  { unfold initEffect; simpl. case_bool_decide as H; simpl; [done|by eexists]. }
  assert (Hagain : initEffect c (initEffect true w) =
            {| maps := maps (initEffect true w); overlays := overlays (initEffect true w);
               mapRef := mapRef (initEffect true w);
               geojsonRef := geojsonRef (initEffect true w);
               isMapVisible := isMapVisible (initEffect true w);
               tasks := tasks (initEffect true w); cleanupMap := None;
               observing := observing (initEffect true w);
               console := console (initEffect true w) |}).
  { unfold initEffect at 1. by rewrite (bool_decide_eq_true_2 _ Hsome), orb_true_r. }
  rewrite Hagain; simpl. repeat split; try done.
  unfold initEffect; simpl. case_bool_decide; simpl; [lia|].
  rewrite length_app; simpl; lia.
Qed.

(** X9: the cleanup of a mounted widget calls [remove] on the map of its
    effect run and nulls [mapRef], and it unregisters the observer; after
    it, [handleLocationClick] with any location changes nothing.  The
    overlay ref is not cleared. *)
Theorem unmount_disables_selection
    (addTo : GeoJSON → Completion) (w : Widget) (map : nat) (m : Map) :
  cleanupMap w = Some map → maps w !! map = Some m →
  maps (step addTo w Unmount) !! map
    = Some {| mapOptions := mapOptions m; calls := calls m ++ [remove] |} ∧
  is_removed (step addTo w Unmount) map = true ∧
  mapRef (step addTo w Unmount) = None ∧
  geojsonRef (step addTo w Unmount) = geojsonRef w ∧
  observing (step addTo w Unmount) = false ∧
  ∀ location,
    handleLocationClick location (step addTo w Unmount) = step addTo w Unmount.
Proof.
  intros Hc Hm. simpl.
  destruct (cleanup_tears_down w map m Hc Hm) as (Href & Hmaps & Hrem & _ & Hg).
  unfold observerCleanup, set_observing, is_removed in *; simpl.
  repeat split; try done.
  intros location. apply handleLocationClick_not_ready. by left.
Qed.

Lemma unmount_disables_selection_witness :
  cleanupMap loaded_widget = Some 0 ∧
  maps loaded_widget !! 0 = Some (call (addLayer (overlay 0)) newMap) ∧
  maps (step (λ _, Normal) loaded_widget Unmount) !! 0
    = Some {| mapOptions := mapOptions (call (addLayer (overlay 0)) newMap);
              calls := calls (call (addLayer (overlay 0)) newMap) ++ [remove] |} ∧
  is_removed (step (λ _, Normal) loaded_widget Unmount) 0 = true ∧
  mapRef (step (λ _, Normal) loaded_widget Unmount) = None ∧
  geojsonRef (step (λ _, Normal) loaded_widget Unmount) = geojsonRef loaded_widget ∧
  observing (step (λ _, Normal) loaded_widget Unmount) = false ∧
  ∀ location,
    handleLocationClick location (step (λ _, Normal) loaded_widget Unmount)
      = step (λ _, Normal) loaded_widget Unmount.
Proof.
  do 2 (split; [reflexivity|]).
  exact (unmount_disables_selection (λ _, Normal) loaded_widget 0
           (call (addLayer (overlay 0)) newMap) eq_refl eq_refl).
Defined.

(** ** Properties of every reachable state *)

(** *** Call logs *)

Lemma flyTo_after_remove_snoc cs c :
  flyTo_after_remove (cs ++ [c]) =
  flyTo_after_remove cs || (existsb is_remove cs && is_flyTo c).
Proof.
  induction cs as [|a cs IH]; simpl.
  - by destruct c.
  - destruct a; simpl; try done.
    rewrite existsb_app; simpl. by rewrite orb_false_r.
Qed.

Lemma removals_call c m :
  removals (call c m) = removals m + (if is_remove c then 1 else 0).
Proof.
  unfold removals, call; simpl. rewrite List.filter_app, length_app; simpl.
  by destruct (is_remove c).
Qed.

Lemma removals_live m : removed m = false → removals m = 0.
Proof.
  unfold removed, removals. induction (calls m) as [|a cs IH]; simpl; [done|].
  destruct (is_remove a); simpl; [done|]. apply IH.
Qed.

Lemma overlay_adds_call c m :
  overlay_adds (call c m) = overlay_adds m + (if is_overlay_add c then 1 else 0).
Proof.
  unfold overlay_adds, call; simpl. rewrite List.filter_app, length_app; simpl.
  by destruct (is_overlay_add c).
Qed.

Lemma live_alter ms c k m :
  is_remove c = false → live ms m → live (alter (call c) k ms) m.
Proof.
  intros Hc (mp & Hm & Hr). destruct (decide (k = m)) as [->|Hne].
  - exists (call c mp). rewrite list_lookup_alter_eq, Hm. split; [done|].
    by rewrite removed_call_other.
  - exists mp. by rewrite list_lookup_alter_ne.
Qed.

Lemma live_app ms x m : live ms m → live (ms ++ [x]) m.
Proof.
  intros (mp & Hm & Hr). exists mp. split; [|done]. by apply lookup_app_l_Some.
Qed.

Lemma live_new ms x : removed x = false → live (ms ++ [x]) (length ms).
Proof.
  intros Hr. exists x. split; [|done].
  by rewrite lookup_app_r, Nat.sub_diag.
Qed.

Lemma logs_alter ms c k :
  is_remove c = false → (is_flyTo c = true → live ms k) →
  logs_ok ms → logs_ok (alter (call c) k ms).
Proof.
  intros Hc Hfly Hok m mp'. destruct (decide (k = m)) as [->|Hne].
  - rewrite list_lookup_alter_eq. destruct (ms !! m) as [mp|] eqn:Hm; [|done].
    intros [= <-]. destruct (Hok m mp Hm) as [Hf Hr].
    rewrite removals_call, Hc, Nat.add_0_r. split; [|done].
    unfold call; simpl. rewrite flyTo_after_remove_snoc, Hf; simpl.
    destruct (is_flyTo c) eqn:Hfc; [|apply andb_false_r].
    destruct (Hfly eq_refl) as (mp0 & Hm0 & Hr0). rewrite Hm in Hm0.
    injection Hm0 as <-. unfold removed in Hr0. by rewrite Hr0.
  - rewrite list_lookup_alter_ne by done. apply Hok.
Qed.

Lemma logs_remove ms k : live ms k → logs_ok ms → logs_ok (alter (call remove) k ms).
Proof.
  intros (mp0 & Hm0 & Hr0) Hok m mp'. destruct (decide (k = m)) as [->|Hne].
  - rewrite list_lookup_alter_eq, Hm0. intros [= <-].
    destruct (Hok m mp0 Hm0) as [Hf _].
    rewrite removals_call, (removals_live _ Hr0); simpl. split; [|lia].
    unfold call; simpl. rewrite flyTo_after_remove_snoc, Hf; simpl.
    apply andb_false_r.
  - rewrite list_lookup_alter_ne by done. apply Hok.
Qed.

Lemma logs_app ms x :
  flyTo_after_remove (calls x) = false → removals x ≤ 1 →
  logs_ok ms → logs_ok (ms ++ [x]).
Proof.
  intros Hf Hr Hok m mp Hm. apply lookup_app_Some in Hm as [Hm|[_ Hm]].
  - by apply (Hok m).
  - destruct (m - length ms); simpl in Hm; [|done]. by injection Hm as <-.
Qed.

Lemma live_remove_other ms k m : k ≠ m → live ms m → live (alter (call remove) k ms) m.
Proof.
  intros Hne (mp & Hm & Hr). exists mp. by rewrite list_lookup_alter_ne.
Qed.

(** *** The invariant of the maps *)

Lemma maps_invariant_intro w :
  (∀ m, mapRef w = Some m → live (maps w) m) →
  (∀ m, cleanupMap w = Some m → live (maps w) m) →
  logs_ok (maps w) → maps_invariant w.
Proof. by intros. Qed.

Lemma maps_invariant_initial : maps_invariant initial.
Proof.
  apply maps_invariant_intro; simpl; done.
Qed.

Lemma maps_invariant_step addTo w e : maps_invariant w → maps_invariant (step addTo w e).
Proof.
  intros Hinv. pose proof Hinv as (Href & Hcl & Hok). fold (logs_ok (maps w)) in Hok.
  destruct e as [c| |t r|t r|location|g i|g i|entry]; simpl.
  - (* Mount *)
    unfold observerEffect, initEffect, loadGeoJSON.
    destruct (negb c || bool_decide (is_Some (mapRef w))) eqn:Hguard.
    + destruct c; first [exact Hinv | by apply maps_invariant_intro].
    + destruct c; simpl in Hguard; [|done].
      apply maps_invariant_intro; simpl.
      * intros m [= <-]. by apply live_new.
      * intros m [= <-]. by apply live_new.
      * apply logs_app; [reflexivity|unfold removals; simpl; lia|done].
  - (* Unmount *)
    unfold observerCleanup, initCleanup.
    destruct (cleanupMap w) as [map|] eqn:Hc; simpl; [|first [exact Hinv | by apply maps_invariant_intro]].
    apply maps_invariant_intro; simpl; try done.
    apply logs_remove; [by apply Hcl|done].
  - (* fetch settled *)
    unfold onFetchSettled, loadGeoJSON_response, loadGeoJSON_catch.
    repeat (case_match; simplify_eq; simpl); first [exact Hinv | by apply maps_invariant_intro].
  - (* body settled *)
    unfold onJsonSettled. destruct (tasks w !! t) as [task|]; [|exact Hinv].
    destruct (task_phase task); try exact Hinv.
    unfold loadGeoJSON_body, loadGeoJSON_catch.
    destruct r as [reason|[|features]]; simpl; try first [exact Hinv | by apply maps_invariant_intro].
    assert (Hlogs : logs_ok (alter (call (addLayer (overlay (length (overlays w)))))
                               (task_map task) (maps w))) by (by apply logs_alter).
    destruct (if is_removed w (task_map task) then addTo (geoJson features defaultStyle)
              else Normal); simpl;
      (apply maps_invariant_intro; simpl;
        [intros m Hm; by apply live_alter, Href
        |intros m Hm; by apply live_alter, Hcl|done]).
  - (* click *)
    destruct (isMapVisible w); [|exact Hinv]. unfold handleLocationClick.
    destruct (mapRef w) as [map|] eqn:Hm; [|exact Hinv].
    destruct (geojsonRef w) as [geojson|] eqn:Hg; [|exact Hinv]; simpl.
    apply maps_invariant_intro; simpl.
    + intros m Hmm. rewrite Hm in Hmm. by apply live_alter, Href.
    + intros m Hmm. by apply live_alter, Hcl.
    + apply logs_alter; [done| |done]. intros _. by apply Href.
  - unfold mouseover. repeat (case_match; simpl); first [exact Hinv | by apply maps_invariant_intro].
  - unfold mouseout. repeat (case_match; simpl); first [exact Hinv | by apply maps_invariant_intro].
  - by apply maps_invariant_intro.
Qed.

Lemma maps_invariant_run addTo es : maps_invariant (run addTo es initial).
Proof.
  induction es as [|e es IH] using rev_ind; [apply maps_invariant_initial|].
  rewrite run_snoc. by apply maps_invariant_step.
Qed.

(** *** The invariant of the load tasks *)

Lemma set_phase_lookup t p w k task' :
  tasks (set_phase t p w) !! k = Some task' →
  ∃ task, tasks w !! k = Some task ∧
    task_map task' = task_map task ∧ task_url task' = task_url task ∧
    (k ≠ t → task' = task) ∧ (k = t → task_phase task' = p).
Proof.
  unfold set_phase; simpl. destruct (decide (t = k)) as [->|Hne].
  - rewrite list_lookup_alter_eq. destruct (tasks w !! k) as [task|]; [|done].
    intros [= <-]. exists task. by repeat split.
  - rewrite list_lookup_alter_ne by done. intros H. exists task'. by repeat split.
Qed.

Lemma set_phase_length t p w : length (tasks (set_phase t p w)) = length (tasks w).
Proof. unfold set_phase; simpl. apply length_alter. Qed.

Lemma tasks_invariant_same w w' :
  tasks w' = tasks w → maps w' = maps w → tasks_invariant w → tasks_invariant w'.
Proof. unfold tasks_invariant. by intros -> ->. Qed.

Lemma tasks_invariant_call w w' c k :
  is_overlay_add c = false →
  maps w' = alter (call c) k (maps w) → tasks w' = tasks w →
  tasks_invariant w → tasks_invariant w'.
Proof.
  intros Hc Hmaps Htasks (HL & HT & HO). unfold tasks_invariant.
  rewrite Hmaps, Htasks. split; [by rewrite length_alter|]. split; [done|].
  intros m mp'. destruct (decide (k = m)) as [->|Hne].
  - rewrite list_lookup_alter_eq. destruct (maps w !! m) as [mp|] eqn:Hm; [|done].
    intros [= <-]. rewrite overlay_adds_call, Hc, Nat.add_0_r. by apply HO.
  - rewrite list_lookup_alter_ne by done. apply HO.
Qed.

Lemma tasks_invariant_phase w w' t p task :
  tasks w !! t = Some task → task_phase task ≠ Settled →
  tasks w' = tasks (set_phase t p w) → maps w' = maps w →
  tasks_invariant w → tasks_invariant w'.
Proof.
  intros Ht Hp Htasks Hmaps (HL & HT & HO). unfold tasks_invariant.
  rewrite Hmaps, Htasks. split; [by rewrite set_phase_length|]. split.
  - intros k task' Hk.
    apply set_phase_lookup in Hk as (task0 & Hk & -> & -> & _). by apply HT.
  - intros m mp Hm. destruct (HO m mp Hm) as [Hle Hzero]. split; [done|].
    intros task' Hk Hns.
    apply set_phase_lookup in Hk as (task0 & Hk & _ & _ & Hother & _).
    destruct (decide (m = t)) as [->|Hne].
    + rewrite Ht in Hk. injection Hk as <-. by apply (Hzero task).
    + rewrite (Hother Hne) in Hns. by apply (Hzero task0).
Qed.

Lemma tasks_invariant_overlay w w' t task h :
  tasks w !! t = Some task → task_phase task ≠ Settled →
  tasks w' = tasks (set_phase t Settled w) →
  maps w' = alter (call (addLayer (overlay h))) (task_map task) (maps w) →
  tasks_invariant w → tasks_invariant w'.
Proof.
  intros Ht Hp Htasks Hmaps (HL & HT & HO). unfold tasks_invariant.
  destruct (HT t task Ht) as [Htm _].
  rewrite Hmaps, Htasks, Htm. split; [by rewrite set_phase_length, length_alter|]. split.
  - intros k task' Hk.
    apply set_phase_lookup in Hk as (task0 & Hk & -> & -> & _). by apply HT.
  - intros m mp'. destruct (decide (t = m)) as [->|Hne].
    + rewrite list_lookup_alter_eq. destruct (maps w !! m) as [mp|] eqn:Hm; [|done].
      intros [= <-]. destruct (HO m mp Hm) as [_ Hzero].
      rewrite overlay_adds_call, (Hzero task Ht Hp); simpl. split; [lia|].
      intros task' Hk Hns.
      apply set_phase_lookup in Hk as (task0 & _ & _ & _ & _ & Hset).
      by rewrite Hset in Hns.
    + rewrite list_lookup_alter_ne by done. intros Hm.
      destruct (HO m mp' Hm) as [Hle Hzero]. split; [done|].
      intros task' Hk Hns.
      apply set_phase_lookup in Hk as (task0 & Hk & _ & _ & Hother & _).
      rewrite Hother in Hns by done. by apply (Hzero task0).
Qed.

Lemma tasks_invariant_mount w w' :
  maps w' = (maps w ++ [newMap])%list →
  tasks w' = (tasks w ++ [ {| task_url := "/cn.json"; task_map := length (maps w);
                              task_phase := AwaitingResponse |} ])%list →
  tasks_invariant w → tasks_invariant w'.
Proof.
  intros Hmaps Htasks (HL & HT & HO). unfold tasks_invariant.
  rewrite Hmaps, Htasks. split; [rewrite !length_app; simpl; lia|]. split.
  - intros k task Hk. apply lookup_app_Some in Hk as [Hk|[Hle Hk]]; [by apply HT|].
    destruct (k - length (tasks w)) as [|n] eqn:Hn; simpl in Hk; [|done].
    injection Hk as <-; simpl. split; [lia|done].
  - intros m mp Hm. apply lookup_app_Some in Hm as [Hm|[Hle Hm]].
    + destruct (HO m mp Hm) as [Hle Hzero]. split; [done|].
      intros task Hk. apply Hzero.
      apply lookup_app_Some in Hk as [Hk|[Hge _]]; [done|].
      apply lookup_lt_Some in Hm. lia.
    + destruct (m - length (maps w)); simpl in Hm; [|done]. injection Hm as <-.
      assert (Hnone : overlay_adds newMap = 0) by reflexivity.
      rewrite Hnone. split; [lia|done].
Qed.

Lemma tasks_invariant_initial : tasks_invariant initial.
Proof. by repeat split. Qed.

Lemma tasks_invariant_step addTo w e : tasks_invariant w → tasks_invariant (step addTo w e).
Proof.
  intros Hinv.
  destruct e as [c| |t r|t r|location|g i|g i|entry]; simpl.
  - unfold observerEffect, initEffect, loadGeoJSON.
    destruct (negb c || bool_decide (is_Some (mapRef w))) eqn:Hguard.
    + destruct c; by apply (tasks_invariant_same w).
    + destruct c; simpl in Hguard; [|done]. by apply (tasks_invariant_mount w).
  - unfold observerCleanup, initCleanup.
    destruct (cleanupMap w) as [map|]; simpl; [|by apply (tasks_invariant_same w)].
    by apply (tasks_invariant_call w _ remove map).
  - unfold onFetchSettled. destruct (tasks w !! t) as [task|] eqn:Ht; [|done].
    destruct (task_phase task) eqn:Hp; try done.
    assert (Hns : task_phase task ≠ Settled) by (by rewrite Hp).
    unfold loadGeoJSON_response, loadGeoJSON_catch.
    destruct r as [reason|[|]]; simpl.
    + by apply (tasks_invariant_phase w _ t Settled task).
    + by apply (tasks_invariant_phase w _ t AwaitingBody task).
    + by apply (tasks_invariant_phase w _ t Settled task).
  - unfold onJsonSettled. destruct (tasks w !! t) as [task|] eqn:Ht; [|done].
    destruct (task_phase task) eqn:Hp; try done.
    assert (Hns : task_phase task ≠ Settled) by (by rewrite Hp).
    unfold loadGeoJSON_body, loadGeoJSON_catch.
    destruct r as [reason|[|features]]; simpl.
    + by apply (tasks_invariant_phase w _ t Settled task).
    + by apply (tasks_invariant_phase w _ t Settled task).
    + destruct (if is_removed w (task_map task) then addTo (geoJson features defaultStyle)
                else Normal); simpl;
        by apply (tasks_invariant_overlay w _ t task (length (overlays w))).
  - destruct (isMapVisible w); [|done]. unfold handleLocationClick.
    destruct (mapRef w) as [map|]; [|done].
    destruct (geojsonRef w) as [geojson|]; [|done].
    by apply (tasks_invariant_call w _
                (flyTo (coords location) (zoom location) 1.2%Q) map).
  - unfold mouseover. repeat (case_match; simpl); by apply (tasks_invariant_same w).
  - unfold mouseout. repeat (case_match; simpl); by apply (tasks_invariant_same w).
  - by apply (tasks_invariant_same w).
Qed.

Lemma tasks_invariant_run addTo es : tasks_invariant (run addTo es initial).
Proof.
  induction es as [|e es IH] using rev_ind; [apply tasks_invariant_initial|].
  rewrite run_snoc. by apply tasks_invariant_step.
Qed.

(** *** What holds along every sequence of events *)

(** X10: in every state reached from the first render, [mapRef] holds a
    map that exists and has not been removed, and no map has received a
    [flyTo] after its [remove]: a selection never flies a torn-down map. *)
Theorem flyTo_never_reaches_removed_map (addTo : GeoJSON → Completion) (es : list Event) :
  match mapRef (run addTo es initial) with
  | Some m => live (maps (run addTo es initial)) m
  | None => True
  end ∧
  Forall (λ mp, flyTo_after_remove (calls mp) = false) (maps (run addTo es initial)).
Proof.
  destruct (maps_invariant_run addTo es) as (Href & _ & Hok). split.
  - destruct (mapRef (run addTo es initial)) as [m|] eqn:Hm; [|done]. by apply Href.
  - apply Forall_forall. intros mp Hmp.
    apply list_elem_of_lookup in Hmp as [m Hm]. by apply (Hok m mp Hm).
Qed.

(** X11: in every state reached from the first render, [remove] has been
    called at most once on each map instance. *)
Theorem map_removed_at_most_once (addTo : GeoJSON → Completion) (es : list Event) :
  Forall (λ mp, removals mp ≤ 1) (maps (run addTo es initial)).
Proof.
  destruct (maps_invariant_run addTo es) as (_ & _ & Hok).
  apply Forall_forall. intros mp Hmp.
  apply list_elem_of_lookup in Hmp as [m Hm]. by apply (Hok m mp Hm).
Qed.

(** X12: in every state reached from the first render there is exactly one
    load per map instance, the load of map [t] being task [t] and fetching
    [/cn.json]: the geometry is requested once per map and never again. *)
Theorem one_load_per_map (addTo : GeoJSON → Completion) (es : list Event) :
  length (tasks (run addTo es initial)) = length (maps (run addTo es initial)) ∧
  task_map <$> tasks (run addTo es initial)
    = seq 0 (length (maps (run addTo es initial))) ∧
  Forall (λ task, task_url task = "/cn.json") (tasks (run addTo es initial)).
Proof.
  destruct (tasks_invariant_run addTo es) as (HL & HT & _).
  split; [done|]. split.
  - rewrite <- HL. apply list_eq. intros k. rewrite list_lookup_fmap.
    destruct (tasks (run addTo es initial) !! k) as [task|] eqn:Hk; simpl.
    + destruct (HT k task Hk) as [-> _]. symmetry. apply lookup_seq.
      split; [done|]. by apply lookup_lt_Some in Hk.
    + symmetry. apply lookup_ge_None. rewrite length_seq. by apply lookup_ge_None.
  - apply Forall_forall. intros task Ht.
    apply list_elem_of_lookup in Ht as [k Hk]. by apply (HT k task Hk).
Qed.

(** X13: in every state reached from the first render, each map instance
    has been given at most one boundary overlay, and none while its load is
    still pending. *)
Theorem at_most_one_overlay_per_map (addTo : GeoJSON → Completion) (es : list Event) :
  Forall (λ mp, overlay_adds mp ≤ 1) (maps (run addTo es initial)) ∧
  Forall2 (λ task mp, task_phase task = Settled ∨ overlay_adds mp = 0)
    (tasks (run addTo es initial)) (maps (run addTo es initial)).
Proof.
  destruct (tasks_invariant_run addTo es) as (HL & _ & HO). split.
  - apply Forall_forall. intros mp Hmp.
    apply list_elem_of_lookup in Hmp as [m Hm]. by apply (HO m mp Hm).
  - apply Forall2_same_length_lookup. split; [done|].
    intros k task mp Hk Hm. destruct (HO k mp Hm) as [_ Hzero].
    destruct (task_phase task) eqn:Hp; [right|right|by left];
      apply (Hzero task Hk); by rewrite Hp.
Qed.

(** *** Features are only restyled *)

Lemma features_kept_alter (f : GeoJSON → GeoJSON) k (os : list GeoJSON) g ov :
  (∀ x, feature <$> layers (f x) = feature <$> layers x) →
  os !! g = Some ov →
  ∃ ov', alter f k os !! g = Some ov' ∧ feature <$> layers ov' = feature <$> layers ov.
Proof.
  intros Hf Hg. destruct (decide (k = g)) as [->|Hne].
  - exists (f ov). by rewrite list_lookup_alter_eq, Hg.
  - exists ov. by rewrite list_lookup_alter_ne.
Qed.

Lemma features_kept_step addTo w e g ov :
  overlays w !! g = Some ov →
  ∃ ov', overlays (step addTo w e) !! g = Some ov' ∧
         feature <$> layers ov' = feature <$> layers ov.
Proof.
  intros Hg.
  assert (Hsame : ∃ ov', overlays w !! g = Some ov' ∧
                         feature <$> layers ov' = feature <$> layers ov) by (by exists ov).
  destruct e as [c| |t r|t r|location|k i|k i|entry]; simpl.
  - unfold observerEffect, initEffect, loadGeoJSON. by repeat (case_match; simpl).
  - unfold observerCleanup, initCleanup. by repeat (case_match; simpl).
  - unfold onFetchSettled, loadGeoJSON_response, loadGeoJSON_catch.
    by repeat (case_match; simplify_eq; simpl).
  - unfold onJsonSettled. destruct (tasks w !! t) as [task|]; [|done].
    destruct (task_phase task); try done.
    unfold loadGeoJSON_body, loadGeoJSON_catch.
    destruct r as [reason|[|features]]; simpl; try done.
    destruct (if is_removed w (task_map task) then addTo (geoJson features defaultStyle)
              else Normal); simpl;
      (exists ov; split; [by apply lookup_app_l_Some|done]).
  - destruct (isMapVisible w); [|done]. unfold handleLocationClick.
    destruct (mapRef w) as [map|]; [|done].
    destruct (geojsonRef w) as [geojson|]; [|done]; simpl.
    apply features_kept_alter; [|done]. intros x. apply select_on_overlay_features.
  - unfold mouseover. destruct (negb (hasSelection w)); [|done]; simpl.
    apply features_kept_alter; [|done]. intros x. by apply alter_layer_features.
  - unfold mouseout. destruct (negb (hasSelection w)); [|done].
    destruct (geojsonRef w) as [r|]; [|done]; simpl.
    apply features_kept_alter; [|done]. intros x. apply setStyle_features.
  - done.
Qed.

(** X14: boundary features are only ever restyled.  Whatever events
    follow, an overlay that exists keeps its place in the store and keeps
    the same features in the same order: no handler adds, drops, reorders
    or edits a feature. *)
Theorem features_are_only_restyled
    (addTo : GeoJSON → Completion) (es : list Event) (w : Widget) (g : nat) (ov : GeoJSON) :
  overlays w !! g = Some ov →
  ∃ ov', overlays (run addTo es w) !! g = Some ov' ∧
         feature <$> layers ov' = feature <$> layers ov ∧
         length (layers ov') = length (layers ov).
Proof.
  intros Hg.
  assert (H : ∃ ov', overlays (run addTo es w) !! g = Some ov' ∧
                     feature <$> layers ov' = feature <$> layers ov).
  { induction es as [|e es IH] using rev_ind; [by exists ov|].
    destruct IH as (ov1 & Hg1 & Hf1). rewrite run_snoc.
    destruct (features_kept_step addTo _ e g ov1 Hg1) as (ov2 & Hg2 & Hf2).
    exists ov2. split; [done|]. by rewrite Hf2. }
  destruct H as (ov' & Hg' & Hf). exists ov'. do 2 (split; [done|]).
  by rewrite <- (length_fmap feature (layers ov')), Hf, length_fmap.
Qed.

Lemma features_are_only_restyled_witness :
  overlays loaded_widget !! 0 = Some (geoJson sample_geometry defaultStyle) ∧
  ∃ ov', overlays (run (λ _, Normal)
                     [MouseOver 0 2; Click preset_china; MouseOut 0 2; Click preset_global;
                      Unmount]
                     loaded_widget) !! 0 = Some ov' ∧
         feature <$> layers ov' = feature <$> layers (geoJson sample_geometry defaultStyle) ∧
         length (layers ov') = length (layers (geoJson sample_geometry defaultStyle)).
Proof.
  split; [reflexivity|].
  exact (features_are_only_restyled (λ _, Normal)
           [MouseOver 0 2; Click preset_china; MouseOut 0 2; Click preset_global; Unmount]
           loaded_widget 0 (geoJson sample_geometry defaultStyle) eq_refl).
Defined.

(** *** After the cleanup *)

(** X16: the cleanup clears [mapRef] but not [geojsonRef].  If the
    initialisation effect runs again on the same refs, it creates a new map,
    and until the new load completes [handleLocationClick] passes its guard
    with the new map and the overlay of the removed one: it restyles that
    old overlay and flies the new map. *)
Theorem remount_selects_on_stale_overlay
    (addTo : GeoJSON → Completion) (location : ILocation) (w : Widget)
    (map geojson : nat) (m : Map) (ov : GeoJSON) :
  cleanupMap w = Some map → maps w !! map = Some m →
  geojsonRef w = Some geojson → overlays w !! geojson = Some ov →
  mapRef (step addTo (step addTo w Unmount) (Mount true)) = Some (length (maps w)) ∧
  geojsonRef (step addTo (step addTo w Unmount) (Mount true)) = Some geojson ∧
  maps (step addTo (step addTo w Unmount) (Mount true)) !! map = Some (call remove m) ∧
  overlays (handleLocationClick location
              (step addTo (step addTo w Unmount) (Mount true))) !! geojson
    = Some (select_on_overlay location ov) ∧
  maps (handleLocationClick location
          (step addTo (step addTo w Unmount) (Mount true))) !! length (maps w)
    = Some (call (flyTo (coords location) (zoom location) 1.2%Q) newMap) ∧
  maps (handleLocationClick location
          (step addTo (step addTo w Unmount) (Mount true))) !! map
    = Some (call remove m).
Proof.
  intros Hc Hm Hg Hov.
  assert (Hlt : map < length (maps w)) by (by apply lookup_lt_Some in Hm).
  assert (Hw : step addTo (step addTo w Unmount) (Mount true) =
            {| maps := alter (call remove) map (maps w) ++ [newMap];
               overlays := overlays w; mapRef := Some (length (maps w));
               geojsonRef := Some geojson; isMapVisible := isMapVisible w;
               tasks := tasks w ++ [ {| task_url := "/cn.json";
                                        task_map := length (maps w);
                                        task_phase := AwaitingResponse |} ];
               cleanupMap := Some (length (maps w)); observing := true;
               console := console w |}).
  { simpl. unfold observerCleanup, initCleanup. rewrite Hc; simpl.
    unfold observerEffect, initEffect, loadGeoJSON; simpl.
    unfold set_observing, with_tasks; simpl. by rewrite length_alter, Hg. }
  assert (Hold : (alter (call remove) map (maps w) ++ [newMap])%list !! map
                 = Some (call remove m)).
  { rewrite lookup_app_l by (by rewrite length_alter).
    by rewrite list_lookup_alter_eq, Hm. }
  rewrite Hw. do 2 (split; [done|]). split; [exact Hold|].
  unfold handleLocationClick; simpl. split; [|split].
  - by rewrite list_lookup_alter_eq, Hov.
  - rewrite list_lookup_alter_eq.
    by rewrite lookup_app_r, length_alter, Nat.sub_diag by (by rewrite length_alter).
  - rewrite list_lookup_alter_ne by lia. exact Hold.
Qed.

Lemma remount_selects_on_stale_overlay_witness :
  cleanupMap selected_widget = Some 0 ∧
  maps selected_widget !! 0
    = Some (call (flyTo (coords preset_china) (zoom preset_china) 1.2%Q)
              (call (addLayer (overlay 0)) newMap)) ∧
  geojsonRef selected_widget = Some 0 ∧
  overlays selected_widget !! 0
    = Some (select_on_overlay preset_china (geoJson sample_geometry defaultStyle)) ∧
  mapRef (step (λ _, Normal) (step (λ _, Normal) selected_widget Unmount) (Mount true))
    = Some (length (maps selected_widget)) ∧
  geojsonRef (step (λ _, Normal) (step (λ _, Normal) selected_widget Unmount) (Mount true))
    = Some 0 ∧
  maps (step (λ _, Normal) (step (λ _, Normal) selected_widget Unmount) (Mount true)) !! 0
    = Some (call remove
              (call (flyTo (coords preset_china) (zoom preset_china) 1.2%Q)
                 (call (addLayer (overlay 0)) newMap))) ∧
  overlays (handleLocationClick preset_zunyi
              (step (λ _, Normal) (step (λ _, Normal) selected_widget Unmount)
                 (Mount true))) !! 0
    = Some (select_on_overlay preset_zunyi
              (select_on_overlay preset_china (geoJson sample_geometry defaultStyle))) ∧
  maps (handleLocationClick preset_zunyi
          (step (λ _, Normal) (step (λ _, Normal) selected_widget Unmount) (Mount true)))
      !! length (maps selected_widget)
    = Some (call (flyTo (coords preset_zunyi) (zoom preset_zunyi) 1.2%Q) newMap) ∧
  maps (handleLocationClick preset_zunyi
          (step (λ _, Normal) (step (λ _, Normal) selected_widget Unmount) (Mount true)))
      !! 0
    = Some (call remove
              (call (flyTo (coords preset_china) (zoom preset_china) 1.2%Q)
                 (call (addLayer (overlay 0)) newMap))).
Proof.
  do 4 (split; [reflexivity|]).
  exact (remount_selects_on_stale_overlay (λ _, Normal) preset_zunyi selected_widget 0 0
           (call (flyTo (coords preset_china) (zoom preset_china) 1.2%Q)
              (call (addLayer (overlay 0)) newMap))
           (select_on_overlay preset_china (geoJson sample_geometry defaultStyle))
           eq_refl eq_refl eq_refl eq_refl).
Defined.

End MapComponent.
